(** * Order and risk management engine of the paper-trading simulator

    A shallow embedding of the account-mutating code of [src/main.py]:
    the market buy and sell branches of [main], [set_stop_loss],
    [check_stop_losses], [place_limit_order], [process_limit_orders] and
    [calculate_net_worth], followed by the properties the specification
    states about them.

    Conventions of the embedding.
    - Python [float] values (cash, prices, percentages, the clock) are
      exact rationals [Q]; rounding of binary floating point is not
      modelled.  Arithmetic results are compared with [==] ([Qeq]).
    - Python [int] share counts are [Z].
    - The dictionaries [user['portfolio']], [user['stop_losses']] and
      [users] are finite maps ([gmap string _]): their keys are unique and
      every loop over them acts on one key at a time.  [pending_orders] is
      iterated in insertion order, which decides who is filled first, and
      is an association list kept in that order.
    - The quote provider behind [fetch_single_price] is a function
      [string -> option stock] passed to the code that calls it. *)

From Stdlib Require Import QArith Lqa ZArith String List Permutation.
From Stdlib Require Import DecimalString DecimalZ Qround.
From stdpp Require Import gmap strings list fin_maps.

Local Open Scope Z_scope.
Local Open Scope Q_scope.
Local Open Scope string_scope.

(** ** Python values *)

(** [a < b] and [a > b] on floats, as booleans. *)
Definition Qltb (a b : Q) : bool := negb (Qle_bool b a).

(** [price * shares]: a float times an int. *)
Definition times (p : Q) (n : Z) : Q := p * inject_Z n.

(** [int(x)] on a float: truncation towards zero. *)
Definition py_int (x : Q) : Z := Z.quot (Qnum x) (Zpos (Qden x)).

(** [str(n)] / [f"{n}"] on an int: decimal digits, ["-"] for negatives. *)
Definition py_str (n : Z) : string := NilZero.string_of_int (Z.to_int n).

(** ** Data model *)

(** An entry of [user['portfolio']]. *)
Record holding := Holding {
  shares : Z;
  avg_cost : Q
}.

(** An entry of [user['stop_losses']], with the six keys [set_stop_loss]
    writes.  An optional field is [None] when the key is missing or holds
    Python's [None]; [check_stop_losses] reads both with [.get] and a
    default. *)
Record stop_data := StopData {
  sl_shares : Z;
  sl_price : Q;
  sl_set_time : string;
  sl_trailing : bool;
  sl_trailing_percent : option Q;
  sl_highest_price : option Q
}.

(** A user record.  The key ['stop_losses'] may be absent ([None]); the
    code reads it with [user.get('stop_losses', {})]. *)
Record user := User {
  balance : Q;
  portfolio : gmap string holding;
  stop_losses : option (gmap string stop_data)
}.

(** A quote, as held in the list [stocks] and returned by
    [fetch_single_price]. *)
Record stock := Stock {
  symbol : string;
  price : Q
}.

Definition quote_source := string -> option stock.

(** A pending limit order. *)
Record order := Order {
  o_user : string;
  o_symbol : string;
  o_shares : Z;
  o_price : Q;
  o_type : string;
  o_created_time : string;
  o_status : string
}.

(** The record [check_stop_losses] appends to [executed_orders]. *)
Record stop_execution := StopExecution {
  se_symbol : string;
  se_shares : Z;
  se_price : Q;
  se_revenue : Q;
  se_stop_price : Q;
  se_trailing : bool
}.

(** The record [process_limit_orders] appends to [executed_orders];
    [le_amount] is the key ['cost'] of a buy and ['revenue'] of a sell. *)
Record limit_execution := LimitExecution {
  le_type : string;
  le_symbol : string;
  le_shares : Z;
  le_target_price : Q;
  le_execution_price : Q;
  le_amount : Q;
  le_user : string
}.

(** [user.get('stop_losses', {})]. *)
Definition get_stop_losses (u : user) : gmap string stop_data :=
  default ∅ (stop_losses u).

(** ** Insertion-ordered dictionary ([pending_orders]) *)

Definition odict (V : Type) := list (string * V).

Fixpoint od_get {V} (k : string) (d : odict V) : option V :=
  match d with
  | [] => None
  | (k', v) :: d' => if String.eqb k k' then Some v else od_get k d'
  end.

(** [d[k] = v]: an existing key keeps its position, a new one goes last. *)
Fixpoint od_set {V} (k : string) (v : V) (d : odict V) : odict V :=
  match d with
  | [] => [(k, v)]
  | (k', v') :: d' =>
      if String.eqb k k' then (k, v) :: d' else (k', v') :: od_set k v d'
  end.

(** [del d[k]]. *)
Fixpoint od_del {V} (k : string) (d : odict V) : odict V :=
  match d with
  | [] => []
  | (k', v') :: d' =>
      if String.eqb k k' then od_del k d' else (k', v') :: od_del k d'
  end.

(** ** Quotes *)

(** [next((s for s in stocks if s['symbol'] == sym), None)]. *)
Definition find_stock (stocks : list stock) (sym : string) : option stock :=
  List.find (fun s => String.eqb (symbol s) sym) stocks.

(** The pre-fetched quote if there is one, else [fetch_single_price(sym)]. *)
Definition current_stock (stocks : list stock) (fetch_single_price : quote_source)
    (sym : string) : option stock :=
  match find_stock stocks sym with
  | Some s => Some s
  | None => fetch_single_price sym
  end.

(** ** Net worth *)

(** The summand of one holding in [calculate_net_worth]: nothing is added
    when neither the list nor the provider has a price. *)
Definition net_worth_term (stocks : list stock) (fetch_single_price : quote_source)
    (sym : string) (data : holding) : Q :=
  match find_stock stocks sym with
  | Some s => inject_Z (shares data) * price s
  | None =>
      match fetch_single_price sym with
      | Some t => inject_Z (shares data) * price t
      | None => 0
      end
  end.

Definition calculate_net_worth (fetch_single_price : quote_source)
    (u : user) (stocks : list stock) : Q :=
  let total_value :=
    foldl (fun acc kv => acc + net_worth_term stocks fetch_single_price kv.1 kv.2)
          0 (map_to_list (portfolio u)) in
  balance u + total_value.

(** The first loop of [show_enhanced_portfolio], which values a holding at
    [avg_cost] when no price can be had, and the [net_worth] it prints. *)
Definition market_value (stocks : list stock) (fetch_single_price : quote_source)
    (sym : string) (data : holding) : Q :=
  let current_price :=
    match current_stock stocks fetch_single_price sym with
    | Some s => price s
    | None => avg_cost data
    end in
  inject_Z (shares data) * current_price.

Definition show_enhanced_portfolio_net_worth (fetch_single_price : quote_source)
    (u : user) (stocks : list stock) : Q :=
  let total_value :=
    foldl (fun acc kv => acc + market_value stocks fetch_single_price kv.1 kv.2)
          0 (map_to_list (portfolio u)) in
  balance u + total_value.

(** ** Stop-loss evaluation *)

(** The state the loop of [check_stop_losses] mutates: the user's balance
    and portfolio, the dictionary [stop_losses], and [executed_orders]. *)
Record sl_state := SlState {
  st_balance : Q;
  st_portfolio : gmap string holding;
  st_stops : gmap string stop_data;
  st_executed : list stop_execution
}.

(** The test of the trailing block: the order is trailing and the current
    price is above ['highest_price'] (or above the current price itself
    when the key is missing, which never holds). *)
Definition new_high (current_price : Q) (sd : stop_data) : bool :=
  sl_trailing sd
  && Qltb (default current_price (sl_highest_price sd)) current_price.

(** The entry after the two assignments made on a new high. *)
Definition ratchet (current_price : Q) (sd : stop_data) : stop_data :=
  let trailing_percent := default 5 (sl_trailing_percent sd) in
  StopData (sl_shares sd)
           (current_price * (1 - trailing_percent / 100))
           (sl_set_time sd) (sl_trailing sd) (sl_trailing_percent sd)
           (Some current_price).

(** One iteration of [for sym, stop_data in list(stop_losses.items())].
    [stop_data] is the very object stored in the dictionary, so assigning
    to its keys is writing to the entry of [sym]. *)
Definition stop_loss_step (stocks : list stock) (fetch_single_price : quote_source)
    (st : sl_state) (item : string * stop_data) : sl_state :=
  let '(sym, sd) := item in
  match st_portfolio st !! sym with
  | None =>
      SlState (st_balance st) (st_portfolio st) (delete sym (st_stops st))
              (st_executed st)
  | Some held =>
      match current_stock stocks fetch_single_price sym with
      | None => st
      | Some s =>
          let current_price := price s in
          let '(sd', stops') :=
            if new_high current_price sd
            then (ratchet current_price sd,
                  <[sym := ratchet current_price sd]> (st_stops st))
            else (sd, st_stops st) in
          let stop_price := sl_price sd' in
          if Qle_bool current_price stop_price then
            let n := sl_shares sd in
            let revenue := times current_price n in
            SlState (st_balance st + revenue)
                    (if Z.leb (shares held) n
                     then delete sym (st_portfolio st)
                     else <[sym := Holding (shares held - n) (avg_cost held)]>
                            (st_portfolio st))
                    (delete sym stops')
                    (st_executed st ++
                     [StopExecution sym n current_price revenue stop_price
                                    (sl_trailing sd)])%list
          else
            SlState (st_balance st) (st_portfolio st) stops' (st_executed st)
      end
  end.

Definition check_stop_losses (fetch_single_price : quote_source)
    (u : user) (stocks : list stock) : user * list stop_execution :=
  match stop_losses u with
  | None => (u, [])
  | Some sl =>
      let st :=
        foldl (stop_loss_step stocks fetch_single_price)
              (SlState (balance u) (portfolio u) sl [])
              (map_to_list sl) in
      (User (st_balance st) (st_portfolio st) (Some (st_stops st)),
       st_executed st)
  end.

(** A sequence of evaluation ticks, each with its own quotes. *)
Definition tick := (list stock * quote_source)%type.

Definition run_ticks (u : user) (ticks : list tick) : user :=
  foldl (fun u t => (check_stop_losses t.2 u t.1).1) u ticks.

(** ** Market orders (the [buy] and [sell] branches of [main]) *)

Inductive outcome :=
| Executed
| StockUnavailable
| InvalidShares
| InsufficientBalance
| NotOwned
| NoQuote
| Cancelled.

(** The portfolio after a purchase: a new holding at the purchase price, or
    the old one with the share-weighted average.  The same lines serve the
    [buy] command and the limit-buy fill. *)
Definition add_shares (pf : gmap string holding) (sym : string) (n : Z)
    (current_price : Q) : gmap string holding :=
  match pf !! sym with
  | None => <[sym := Holding n current_price]> pf
  | Some old_data =>
      let old_shares := shares old_data in
      let old_avg := avg_cost old_data in
      let new_shares := (old_shares + n)%Z in
      let new_avg :=
        (old_avg * inject_Z old_shares + current_price * inject_Z n)
        / inject_Z new_shares in
      <[sym := Holding new_shares new_avg]> pf
  end.

(** The portfolio after a sale out of holding [held]: the count goes down
    and the entry is deleted at zero.  The same lines serve the [sell]
    command and the limit-sell fill. *)
Definition remove_shares (pf : gmap string holding) (sym : string)
    (held : holding) (n : Z) : gmap string holding :=
  let left := (shares held - n)%Z in
  if Z.eqb left 0 then delete sym pf
  else <[sym := Holding left (avg_cost held)]> pf.

(** The [buy] branch once the quote is known: [n] is [int(parts[2])],
    [confirm] whether the trader typed [yes]. *)
Definition buy_at (u : user) (sym : string) (n : Z) (current_price : Q)
    (confirm : bool) : outcome * user :=
  if Z.leb n 0 then (InvalidShares, u)
  else
    let cost := times current_price n in
    if Qltb (balance u) cost then (InsufficientBalance, u)
    else if negb confirm then (Cancelled, u)
    else
      (Executed,
       User (balance u - cost) (add_shares (portfolio u) sym n current_price)
            (stop_losses u)).

(** The [buy] branch of [main].  (A quote fetched here is also appended to
    the list [stocks]; that list is not part of the account.) *)
Definition main_buy (fetch_single_price : quote_source) (u : user)
    (stocks : list stock) (sym : string) (n : Z) (confirm : bool)
    : outcome * user :=
  match current_stock stocks fetch_single_price sym with
  | None => (StockUnavailable, u)
  | Some s => buy_at u sym n (price s) confirm
  end.

(** The [sell] branch of [main]. *)
Definition main_sell (fetch_single_price : quote_source) (u : user)
    (stocks : list stock) (sym : string) (n : Z) (confirm : bool)
    : outcome * user :=
  match portfolio u !! sym with
  | None => (NotOwned, u)
  | Some held =>
      match current_stock stocks fetch_single_price sym with
      | None => (NoQuote, u)
      | Some s =>
          if Z.leb n 0 || Z.ltb (shares held) n then (InvalidShares, u)
          else
            let current_price := price s in
            let revenue := times current_price n in
            if negb confirm then (Cancelled, u)
            else
              (Executed,
               User (balance u + revenue)
                    (remove_shares (portfolio u) sym held n)
                    (stop_losses u))
      end
  end.


(** ** Creating a stop order *)

(** Truth value of a float-or-[None] argument in [if trailing and
    trailing_percent]: [None] and [0.0] are false. *)
Definition truthy (x : option Q) : bool :=
  match x with
  | Some p => negb (Qeq_bool p 0)
  | None => false
  end.

(** [set_stop_loss(user, sym, shares, stop_price, trailing,
    trailing_percent)]; [now] is [datetime.now().isoformat()].  The key
    ['stop_losses'] is created before the quote is asked for.  In the
    branch that asks for it [trailing_percent] is a non-zero number, so the
    [default] there is never used. *)
Definition set_stop_loss (fetch_single_price : quote_source) (now : string)
    (u : user) (sym : string) (n : Z) (stop_price : Q)
    (trailing : bool) (trailing_percent : option Q) : bool * user :=
  match portfolio u !! sym with
  | None => (false, u)
  | Some held =>
      let available_shares := shares held in
      if Z.ltb available_shares n then (false, u)
      else
        let sl := get_stop_losses u in
        let u1 := User (balance u) (portfolio u) (Some sl) in
        let store current_price stop_price :=
          (true,
           User (balance u) (portfolio u)
                (Some (<[sym := StopData n stop_price now trailing
                                         trailing_percent
                                         (if trailing then Some current_price
                                          else None)]> sl))) in
        if trailing && truthy trailing_percent then
          match fetch_single_price sym with
          | Some s =>
              let current_price := price s in
              store current_price
                    (current_price * (1 - default 0 trailing_percent / 100))
          | None => (false, u1)
          end
        else store stop_price stop_price
  end.

(** ** Limit orders *)

(** [place_limit_order]; [clock] is the value of [time.time()] and [now]
    that of [datetime.now().isoformat()]. *)
Definition order_id (username sym order_type : string) (clock : Q) : string :=
  username ++ "_" ++ sym ++ "_" ++ order_type ++ "_" ++ py_str (py_int clock).

Definition place_limit_order (clock : Q) (now : string)
    (pending_orders : odict order) (username sym : string) (n : Z)
    (target_price : Q) (order_type : string) : string * odict order :=
  let id := order_id username sym order_type clock in
  let o := Order username sym n target_price order_type now "pending" in
  (id, od_set id o pending_orders).

(** The state the loop of [process_limit_orders] mutates. *)
Record lo_state := LoState {
  lo_pending : odict order;
  lo_users : gmap string user;
  lo_executed : list limit_execution
}.

(** One iteration of [for order_id, order in list(pending_orders.items())].
    [user] is the object stored in [users], so the fill is written to the
    entry of [username].  The final [del] stands in the [if should_execute]
    block, after the two fill branches. *)
Definition limit_order_step (stocks : list stock) (fetch_single_price : quote_source)
    (st : lo_state) (item : string * order) : lo_state :=
  let '(id, o) := item in
  let sym := o_symbol o in
  let target_price := o_price o in
  let n := o_shares o in
  let order_type := o_type o in
  let username := o_user o in
  match lo_users st !! username with
  | None => LoState (od_del id (lo_pending st)) (lo_users st) (lo_executed st)
  | Some u =>
      match current_stock stocks fetch_single_price sym with
      | None => st
      | Some s =>
          let current_price := price s in
          let should_execute :=
            if String.eqb order_type "buy" && Qle_bool current_price target_price
            then true
            else if String.eqb order_type "sell"
                    && Qle_bool target_price current_price
            then true
            else false in
          if should_execute then
            let '(users', executed') :=
              if String.eqb order_type "buy" then
                let cost := times current_price n in
                if Qle_bool cost (balance u) then
                  (<[username :=
                       User (balance u - cost)
                            (add_shares (portfolio u) sym n current_price)
                            (stop_losses u)]> (lo_users st),
                   (lo_executed st ++
                    [LimitExecution "buy" sym n target_price current_price
                                    cost username])%list)
                else (lo_users st, lo_executed st)
              else if String.eqb order_type "sell" then
                match portfolio u !! sym with
                | Some held =>
                    if Z.leb n (shares held) then
                      let revenue := times current_price n in
                      (<[username :=
                           User (balance u + revenue)
                                (remove_shares (portfolio u) sym held n)
                                (stop_losses u)]> (lo_users st),
                       (lo_executed st ++
                        [LimitExecution "sell" sym n target_price current_price
                                        revenue username])%list)
                    else (lo_users st, lo_executed st)
                | None => (lo_users st, lo_executed st)
                end
              else (lo_users st, lo_executed st) in
            LoState (od_del id (lo_pending st)) users' executed'
          else st
      end
  end.

Definition process_limit_orders (fetch_single_price : quote_source)
    (pending_orders : odict order) (stocks : list stock)
    (users : gmap string user)
    : odict order * gmap string user * list limit_execution :=
  let st :=
    foldl (limit_order_step stocks fetch_single_price)
          (LoState pending_orders users []) pending_orders in
  (lo_pending st, lo_users st, lo_executed st).

(** ** Selling a percentage of a holding *)


(** ** Cancelling orders *)

(** Truth value of the optional [symbol] argument in [if symbol]: [None]
    and the empty string are false. *)
Definition given (symbol : option string) : option string :=
  match symbol with
  | Some sym => if String.eqb sym "" then None else Some sym
  | None => None
  end.

(** [cancel_order(user, pending_orders, username, order_type, symbol)].
    For stop orders the dictionary is [user.get('stop_losses', {})]: when
    the key is absent the deletions act on a throw-away dictionary.  For
    limit orders the ids of the trader's orders are collected first and
    then deleted one by one, all of them or those of [symbol]. *)
Definition cancel_order (u : user) (pending_orders : odict order)
    (username order_type : string) (symbol : option string)
    : user * odict order :=
  if String.eqb order_type "stoploss" then
    match stop_losses u with
    | None => (u, pending_orders)
    | Some sl =>
        match given symbol with
        | Some sym =>
            match sl !! sym with
            | Some _ =>
                (User (balance u) (portfolio u) (Some (delete sym sl)),
                 pending_orders)
            | None => (u, pending_orders)
            end
        | None => (User (balance u) (portfolio u) (Some ∅), pending_orders)
        end
    end
  else if String.eqb order_type "limit" then
    let user_orders :=
      List.map fst
        (List.filter (fun kv => String.eqb (o_user kv.2) username)
                     pending_orders) in
    match given symbol with
    | Some sym =>
        (u,
         foldl (fun pending id =>
                  match od_get id pending with
                  | Some o =>
                      if String.eqb (o_symbol o) sym then od_del id pending
                      else pending
                  | None => pending
                  end)
               pending_orders user_orders)
    | None => (u, foldl (fun pending id => od_del id pending)
                        pending_orders user_orders)
    end
  else (u, pending_orders).

(** ** The order commands of [main] *)

(** What the [limitbuy] and [limitsell] branches answer. *)
Inductive placement :=
| Placed (id : string)
| InvalidOrder
| NoFunds
| NoShares.

(** The [limitbuy] branch: [n] is [int(parts[2])] and [target_price] is
    [float(parts[3])]. *)
Definition main_limitbuy (clock : Q) (now : string) (u : user)
    (pending_orders : odict order) (username sym : string) (n : Z)
    (target_price : Q) : placement * odict order :=
  if Z.leb n 0 || Qle_bool target_price 0 then (InvalidOrder, pending_orders)
  else
    let estimated_cost := times target_price n in
    if Qltb (balance u) estimated_cost then (NoFunds, pending_orders)
    else
      let placed :=
        place_limit_order clock now pending_orders username sym n target_price
                          "buy" in
      (Placed placed.1, placed.2).




(** ** One turn of the command loop *)






(** ** Predicates of the specification *)

(** Every symbol with a stop order is held. *)
Definition stops_held (u : user) : Prop :=
  ∀ sym, is_Some (get_stop_losses u !! sym) → is_Some (portfolio u !! sym).

(** A trailing entry as [set_stop_loss] creates it from a live quote and as
    the ratchet keeps it: a percentage strictly between 0 and 100, a
    recorded high, and the stop price that percentage below the high. *)
Definition trailing_ok (sd : stop_data) : Prop :=
  ∃ p h,
    sl_trailing_percent sd = Some p ∧ sl_highest_price sd = Some h ∧
    0 < p ∧ p < 100 ∧ sl_price sd == h * (1 - p / 100).

Definition stops_ok (u : user) : Prop :=
  ∀ sym sd,
    get_stop_losses u !! sym = Some sd → sl_trailing sd = true → trailing_ok sd.

(** The recorded high of an entry, for comparison across ticks. *)
Definition high_of (sd : stop_data) : Q := default 0 (sl_highest_price sd).

(** Cash is not negative and every holding has a positive share count. *)
Definition account_ok (u : user) : Prop :=
  0 <= balance u ∧ ∀ sym h, portfolio u !! sym = Some h → (0 < shares h)%Z.





(** ** Example accounts and quotes *)

(** A provider with no price for any symbol, and a pre-fetched list with
    one quote. *)
Definition no_quotes : quote_source := fun _ => None.

Definition acme_at (p : Q) : list stock := [Stock "ACME" p].

(** Ten shares of ACME bought at 100 and no cash left. *)
Definition ten_acme : user :=
  User 0 {[ "ACME" := Holding 10 100 ]} (Some ∅).

(** [ten_acme] after [stoploss acme 10 95], then [sell acme 7] at 120. *)
Definition ten_acme_stopped : user :=
  (set_stop_loss no_quotes "t0" ten_acme "ACME" 10 95 false None).2.

Definition three_acme_left : user :=
  (main_sell no_quotes ten_acme_stopped (acme_at 120) "ACME" 7 true).2.


(** Ten shares with an average cost of 50 next to 1000 in cash. *)
Definition unpriced_holder : user :=
  User 1000 {[ "ACME" := Holding 10 50 ]} (Some ∅).

(** A trader with 500 in cash and three shares, and two pending orders of
    hers: buy 10 at 100 or better, sell 5 at 100 or better. *)
Definition ann : user := User 500 {[ "ACME" := Holding 3 80 ]} (Some ∅).

Definition ann_buy : odict order :=
  [("ann_ACME_buy_1000", Order "ann" "ACME" 10 100 "buy" "t0" "pending")].

Definition ann_sell : odict order :=
  [("ann_ACME_sell_1000", Order "ann" "ACME" 5 100 "sell" "t0" "pending")].

(** A provider that quotes ACME at [p] and nothing else. *)
Definition live_acme (p : Q) : quote_source :=
  fun sym => if String.eqb sym "ACME" then Some (Stock "ACME" p) else None.

(** [ten_acme] after [trailstop acme 10 5] with ACME quoted at 100. *)
Definition trailing_acme : user :=
  (set_stop_loss (live_acme 100) "t0" ten_acme "ACME" 10 0 true (Some 5)).2.

(** A trader with 10000 in cash and nothing else. *)
Definition newcomer : user := User 10000 ∅ (Some ∅).




(** ** Further predicates *)

(** Cash [b] after the revenues of a list of stop executions, added in
    the order of the list. *)
Definition credited (b : Q) (executed : list stop_execution) : Q :=
  foldl (fun acc e => acc + se_revenue e) b executed.

(** No quote is negative. *)
Definition quotes_nonneg (stocks : list stock) (fetch_single_price : quote_source)
    : Prop :=
  ∀ sym s, current_stock stocks fetch_single_price sym = Some s → 0 <= price s.

(** No stop order is for a negative number of shares. *)
Definition stop_shares_nonneg (u : user) : Prop :=
  ∀ sym sd, get_stop_losses u !! sym = Some sd → (0 <= sl_shares sd)%Z.

(** Every account is sound. *)
Definition users_ok (users : gmap string user) : Prop :=
  ∀ name u, users !! name = Some u → account_ok u.

(** Every pending order is for a positive number of shares. *)
Definition orders_positive (pending_orders : odict order) : Prop :=
  ∀ id o, (id, o) ∈ pending_orders → (0 < o_shares o)%Z.

(** The ids of a book are pairwise distinct, as the keys of a dictionary
    are. *)
Definition unique_ids (pending_orders : odict order) : Prop :=
  NoDup pending_orders.*1.

(** A stop execution record that matches the order it comes from and the
    quote it was executed at. *)
Definition stop_record_ok (stocks : list stock) (fetch_single_price : quote_source)
    (sl : gmap string stop_data) (e : stop_execution) : Prop :=
  ∃ sd s,
    sl !! se_symbol e = Some sd ∧
    current_stock stocks fetch_single_price (se_symbol e) = Some s ∧
    se_shares e = sl_shares sd ∧ se_trailing e = sl_trailing sd ∧
    se_price e = price s ∧
    se_revenue e = times (price s) (sl_shares sd) ∧
    se_price e <= se_stop_price e.

(** A limit execution record that matches an order of the book and the
    quote it was filled at. *)
Definition limit_record_ok (stocks : list stock) (fetch_single_price : quote_source)
    (pending_orders : odict order) (e : limit_execution) : Prop :=
  ∃ id o s,
    (id, o) ∈ pending_orders ∧
    current_stock stocks fetch_single_price (o_symbol o) = Some s ∧
    le_type e = o_type o ∧ le_symbol e = o_symbol o ∧
    le_shares e = o_shares o ∧ le_target_price e = o_price o ∧
    le_user e = o_user o ∧
    le_execution_price e = price s ∧
    le_amount e = times (price s) (o_shares o) ∧
    ((o_type o = "buy" ∧ price s <= o_price o)
     ∨ (o_type o = "sell" ∧ o_price o <= price s)).


(** ** Properties *)

(** *** Python values *)

Lemma Qltb_lt (a b : Q) : Qltb a b = true ↔ a < b.
Proof.
  unfold Qltb. rewrite negb_true_iff, <- not_true_iff_false, Qle_bool_iff.
  split; intros H; [apply Qnot_le_lt, H | apply Qlt_not_le, H].
Qed.

Lemma Qltb_ge (a b : Q) : Qltb a b = false ↔ b <= a.
Proof.
  unfold Qltb. rewrite negb_false_iff. apply Qle_bool_iff.
Qed.

Lemma Qle_bool_gt (a b : Q) : Qle_bool a b = false ↔ b < a.
Proof.
  rewrite <- not_true_iff_false, Qle_bool_iff.
  split; intros H; [apply Qnot_le_lt, H | apply Qlt_not_le, H].
Qed.

(** The factor [1 - p/100] of a percentage between 0 and 100. *)
Lemma factor_bounds (p : Q) : 0 < p → p < 100 → 0 < 1 - p / 100 ∧ 1 - p / 100 < 1.
Proof.
  intros H0 H1. unfold Qdiv.
  assert (E : p * / 100 == p * (1 # 100)) by reflexivity.
  rewrite E. split; lra.
Qed.


(** Ratcheting is monotone in the high. *)
Lemma ratcheted_mono (h q p : Q) :
  h <= q → 0 < p → p < 100 → h * (1 - p / 100) <= q * (1 - p / 100).
Proof.
  intros Hq H0 H1. destruct (factor_bounds p H0 H1) as [Hf _].
  apply Qmult_le_compat_r; [assumption | apply Qlt_le_weak, Hf].
Qed.

(** *** The stop-loss loop, one symbol at a time *)

Section StopLossLoop.
Variable stocks : list stock.
Variable fetch_single_price : quote_source.

Local Abbreviation step := (stop_loss_step stocks fetch_single_price).

(** An iteration for another symbol leaves the entries of [sym] alone. *)
Lemma stop_loss_step_other st k sd sym :
  k ≠ sym →
  st_portfolio (step st (k, sd)) !! sym = st_portfolio st !! sym ∧
  st_stops (step st (k, sd)) !! sym = st_stops st !! sym.
Proof.
  intros Hk. unfold stop_loss_step.
  destruct (st_portfolio st !! k) as [held|] eqn:Hp; simpl.
  2: { split; [reflexivity | apply lookup_delete_ne, Hk]. }
  destruct (current_stock stocks fetch_single_price k) as [s|]; [|done].
  destruct (new_high (price s) sd);
    destruct (Qle_bool (price s) _); simpl;
    try destruct (Z.leb _ _); simpl;
    rewrite ?lookup_delete_ne, ?lookup_insert_ne by done; done.
Qed.

Lemma stop_loss_loop_other l st sym :
  sym ∉ l.*1 →
  st_portfolio (foldl step st l) !! sym = st_portfolio st !! sym ∧
  st_stops (foldl step st l) !! sym = st_stops st !! sym.
Proof.
  revert st. induction l as [|[k sd] l IH]; intros st Hn; [done|].
  rewrite fmap_cons, not_elem_of_cons in Hn. destruct Hn as [Hk Hl].
  cbn [foldl]. destruct (IH (step st (k, sd)) Hl) as [-> ->].
  apply stop_loss_step_other. done.
Qed.

(** The entries of [sym] after the whole loop are those left by the one
    iteration for [sym], run on a state that still has the original
    entries of [sym]. *)
Lemma stop_loss_loop_at (sl : gmap string stop_data) st0 sym sd :
  st_stops st0 = sl → sl !! sym = Some sd →
  ∃ st1,
    st_portfolio st1 !! sym = st_portfolio st0 !! sym ∧
    st_stops st1 !! sym = Some sd ∧
    st_portfolio (foldl step st0 (map_to_list sl)) !! sym
      = st_portfolio (step st1 (sym, sd)) !! sym ∧
    st_stops (foldl step st0 (map_to_list sl)) !! sym
      = st_stops (step st1 (sym, sd)) !! sym.
Proof.
  intros Hst Hsd.
  assert (Hin : (sym, sd) ∈ map_to_list sl) by (apply elem_of_map_to_list, Hsd).
  assert (Hnd : NoDup (map_to_list sl).*1) by apply NoDup_fst_map_to_list.
  apply list_elem_of_split in Hin. destruct Hin as (l1 & l2 & Hl).
  rewrite Hl in Hnd |- *. rewrite fmap_app, fmap_cons in Hnd. simpl in Hnd.
  apply NoDup_app in Hnd. destruct Hnd as (_ & Hdisj & Hnd2).
  apply NoDup_cons in Hnd2. destruct Hnd2 as [Hn2 _].
  assert (Hn1 : sym ∉ l1.*1).
  { intros Hc. apply (Hdisj _ Hc). left. }
  exists (foldl step st0 l1).
  destruct (stop_loss_loop_other l1 st0 sym Hn1) as [E1 E2].
  rewrite foldl_app. cbn [foldl].
  destruct (stop_loss_loop_other l2 (step (foldl step st0 l1) (sym, sd)) sym Hn2)
    as [E3 E4].
  rewrite E1, E2, E3, E4, Hst. done.
Qed.

(** A symbol without a stop order has none after the loop. *)
Lemma stop_loss_loop_absent (sl : gmap string stop_data) st0 sym :
  st_stops st0 = sl → sl !! sym = None →
  st_stops (foldl step st0 (map_to_list sl)) !! sym = None.
Proof.
  intros Hst Hn.
  assert (Hnot : sym ∉ (map_to_list sl).*1).
  { intros Hc. apply list_elem_of_fmap in Hc. destruct Hc as ([k v] & -> & Hin).
    apply elem_of_map_to_list in Hin. simpl in Hn. congruence. }
  destruct (stop_loss_loop_other _ st0 sym Hnot) as [_ ->].
  rewrite Hst. exact Hn.
Qed.

(** What one iteration leaves at its own symbol. *)
Lemma stop_loss_step_at st sym sd held s :
  st_portfolio st !! sym = Some held →
  current_stock stocks fetch_single_price sym = Some s →
  let sd' := if new_high (price s) sd then ratchet (price s) sd else sd in
  if Qle_bool (price s) (sl_price sd') then
    st_stops (step st (sym, sd)) !! sym = None ∧
    st_balance (step st (sym, sd))
      = st_balance st + times (price s) (sl_shares sd) ∧
    st_portfolio (step st (sym, sd)) !! sym
      = (if Z.leb (shares held) (sl_shares sd) then None
         else Some (Holding (shares held - sl_shares sd) (avg_cost held)))
  else
    st_stops (step st (sym, sd)) !! sym
      = (if new_high (price s) sd then Some sd' else st_stops st !! sym) ∧
    st_balance (step st (sym, sd)) = st_balance st ∧
    st_portfolio (step st (sym, sd)) = st_portfolio st.
Proof.
  intros Hp Hs. unfold stop_loss_step. rewrite Hp, Hs.
  destruct (new_high (price s) sd); simpl;
    destruct (Qle_bool (price s) _); simpl;
    try destruct (Z.leb _ _); simpl;
    rewrite ?lookup_delete_eq, ?lookup_insert_eq; done.
Qed.
End StopLossLoop.

(** *** Triggered stop orders *)

(** C1. A stop that triggers credits the cash for the order's full share
    count even when fewer shares are held.  Ten shares are held, a stop is
    set for ten at 95, seven are sold at 120 (cash 840), and the quote
    falls to 90: the three remaining shares are sold off, the order is
    deleted, but the cash grows by [90 * 10] to 1740 instead of by
    [90 * min 10 3] to 1110. *)
Theorem check_stop_losses_credits_unheld_shares :
  let before := three_acme_left in
  let after := (check_stop_losses no_quotes before (acme_at 90)).1 in
  portfolio before !! "ACME" = Some (Holding 3 100) ∧
  get_stop_losses before !! "ACME" = Some (StopData 10 95 "t0" false None None) ∧
  balance before == 840 ∧
  portfolio after !! "ACME" = None ∧
  get_stop_losses after !! "ACME" = None ∧
  balance after == balance before + times 90 10 ∧
  ¬ balance after == balance before + times 90 (Z.min 10 3).
Proof.
  cbv zeta. repeat split; try (vm_compute; reflexivity).
  vm_compute. discriminate.
Qed.

(** *** Limit orders whose fill is refused *)

(** An iteration whose price condition holds and whose fill is refused,
    for lack of cash or of shares, deletes the order and nothing else. *)
Lemma limit_order_step_refused stocks fetch_single_price st id o u s :
  lo_users st !! o_user o = Some u →
  current_stock stocks fetch_single_price (o_symbol o) = Some s →
  (o_type o = "buy" ∧ price s <= o_price o ∧
   balance u < times (price s) (o_shares o))
  ∨ (o_type o = "sell" ∧ o_price o <= price s ∧
     ∀ held, portfolio u !! o_symbol o = Some held → (shares held < o_shares o)%Z) →
  limit_order_step stocks fetch_single_price st (id, o)
  = LoState (od_del id (lo_pending st)) (lo_users st) (lo_executed st).
Proof.
  intros Hu Hs Hcase. unfold limit_order_step. rewrite Hu, Hs.
  destruct Hcase as [(Ht & Hprice & Hcash)|(Ht & Hprice & Hheld)]; rewrite Ht; simpl.
  - apply Qle_bool_iff in Hprice. rewrite Hprice.
    assert (E : Qle_bool (times (price s) (o_shares o)) (balance u) = false)
      by (apply Qle_bool_gt; exact Hcash).
    rewrite E. reflexivity.
  - apply Qle_bool_iff in Hprice. rewrite Hprice.
    destruct (portfolio u !! o_symbol o) as [held|]; [|reflexivity].
    assert (E : Z.leb (o_shares o) (shares held) = false)
      by (apply Z.leb_gt, Hheld; reflexivity).
    rewrite E. reflexivity.
Qed.

(** C2. A limit order whose price condition holds is deleted from
    [pending_orders] whether or not the fill goes through.  With 500 in
    cash a buy of 10 at a quote of 90, and with 3 shares a sell of 5 at a
    quote of 110, are both refused: the account is untouched, nothing is
    recorded as executed, and the order is gone. *)
Theorem process_limit_orders_drops_refused_order :
  process_limit_orders no_quotes ann_buy (acme_at 90) {[ "ann" := ann ]}
    = ([], {[ "ann" := ann ]}, []) ∧
  process_limit_orders no_quotes ann_sell (acme_at 110) {[ "ann" := ann ]}
    = ([], {[ "ann" := ann ]}, []).
Proof.
  split; vm_compute; reflexivity.
Qed.

(** *** Net worth *)

(** The net worth printed by [show_enhanced_portfolio] is the cash plus,
    for each holding, the shares times the quote, or times the average
    cost when there is no quote. *)
Lemma show_enhanced_portfolio_net_worth_unpriced u :
  show_enhanced_portfolio_net_worth no_quotes u []
  = balance u
    + foldl (fun acc kv => acc + inject_Z (shares kv.2) * avg_cost kv.2) 0
            (map_to_list (portfolio u)).
Proof. reflexivity. Qed.

(** C3. [calculate_net_worth] adds nothing for a holding without any
    price.  Ten shares with average cost 50 and 1000 in cash are worth
    1000 to it, not [1000 + 10 * 50]; the portfolio screen computes the
    latter. *)
Theorem calculate_net_worth_skips_unpriced_holding :
  calculate_net_worth no_quotes unpriced_holder [] == 1000 ∧
  ¬ calculate_net_worth no_quotes unpriced_holder [] == 1000 + 10 * 50 ∧
  show_enhanced_portfolio_net_worth no_quotes unpriced_holder [] == 1000 + 10 * 50.
Proof.
  repeat split; try (vm_compute; reflexivity).
  vm_compute. discriminate.
Qed.

(** *** Stop orders and holdings *)

(** The loop keeps: a symbol with a stop order is held or still to come. *)
Lemma stop_loss_loop_held stocks fetch_single_price l st :
  (∀ k, is_Some (st_stops st !! k) →
        is_Some (st_portfolio st !! k) ∨ k ∈ l.*1) →
  ∀ k, is_Some (st_stops (foldl (stop_loss_step stocks fetch_single_price) st l) !! k) →
       is_Some (st_portfolio (foldl (stop_loss_step stocks fetch_single_price) st l) !! k).
Proof.
  revert st. induction l as [|[sym sd] l IH]; intros st HP k Hk.
  - destruct (HP k Hk) as [H|H]; [exact H | inversion H].
  - cbn [foldl] in *. apply IH; [|exact Hk]. clear k Hk. intros k Hk.
    destruct (decide (sym = k)) as [->|Hne].
    + left. destruct (st_portfolio st !! k) as [held|] eqn:Hp.
      * destruct (current_stock stocks fetch_single_price k) as [s|] eqn:Hs.
        -- pose proof (stop_loss_step_at stocks fetch_single_price st k sd held s Hp Hs) as H.
           cbv zeta in H. destruct (Qle_bool (price s) _).
           ++ destruct H as [H _]. rewrite H in Hk. destruct Hk; discriminate.
           ++ destruct H as (_ & _ & ->). rewrite Hp. eauto.
        -- unfold stop_loss_step. rewrite Hp, Hs, Hp. eauto.
      * unfold stop_loss_step in Hk. rewrite Hp in Hk. simpl in Hk.
        rewrite lookup_delete_eq in Hk. destruct Hk; discriminate.
    + destruct (stop_loss_step_other stocks fetch_single_price st sym sd k Hne)
        as [E1 E2].
      rewrite E1. rewrite E2 in Hk.
      destruct (HP k Hk) as [H|H]; [left; exact H|].
      rewrite fmap_cons in H. apply elem_of_cons in H. destruct H as [H|H].
      * simpl in H. congruence.
      * right. exact H.
Qed.

(** After every stop-loss pass each symbol with a stop order is held. *)
Lemma check_stop_losses_stops_held fetch_single_price u stocks :
  stops_held (check_stop_losses fetch_single_price u stocks).1.
Proof.
  unfold check_stop_losses, stops_held, get_stop_losses.
  destruct (stop_losses u) as [sl|] eqn:Hsl; simpl.
  - apply stop_loss_loop_held. simpl. intros k [v Hv]. right.
    apply list_elem_of_fmap. exists (k, v). split; [done|].
    apply elem_of_map_to_list, Hv.
  - rewrite Hsl. simpl. intros sym H. rewrite lookup_empty in H.
    destruct H; discriminate.
Qed.




(** *** Limit order ids *)

Lemma od_get_set_eq {V} k (v : V) d : od_get k (od_set k v d) = Some v.
Proof.
  induction d as [|[k' v'] d IH]; simpl.
  - rewrite String.eqb_refl. reflexivity.
  - destruct (String.eqb k k') eqn:E; simpl.
    + rewrite String.eqb_refl. reflexivity.
    + rewrite E. exact IH.
Qed.

Lemma od_get_set_ne {V} k k' (v : V) d :
  k' ≠ k → od_get k' (od_set k v d) = od_get k' d.
Proof.
  intros Hne. induction d as [|[k0 v0] d IH]; simpl.
  - apply String.eqb_neq in Hne. rewrite Hne. reflexivity.
  - destruct (String.eqb k k0) eqn:E; simpl.
    + apply String.eqb_eq in E. subst k0.
      apply String.eqb_neq in Hne. rewrite Hne. reflexivity.
    + rewrite IH. reflexivity.
Qed.

(** [str] of an int determines the int. *)
Lemma py_str_inj a b : py_str a = py_str b → a = b.
Proof.
  unfold py_str. intros H. apply DecimalZ.to_int_inj.
  assert (Hn : ∀ z, Z.to_int z ≠ Decimal.Pos Decimal.Nil
                    ∧ Z.to_int z ≠ Decimal.Neg Decimal.Nil).
  { intros [|q|q]; simpl; split; try discriminate;
      intros [= E]; exact (DecimalPos.Unsigned.to_uint_nonnil q E). }
  destruct (Hn a) as [Ha1 Ha2]. destruct (Hn b) as [Hb1 Hb2].
  pose proof (NilZero.isi _ Ha1 Ha2) as Ea.
  pose proof (NilZero.isi _ Hb1 Hb2) as Eb.
  rewrite H in Ea. congruence.
Qed.

(** Orders of one trader, symbol and side get the same id exactly when
    their clock readings fall in the same whole second. *)
Lemma order_id_same_second username sym order_type clock clock' :
  order_id username sym order_type clock' = order_id username sym order_type clock
  ↔ py_int clock' = py_int clock.
Proof.
  unfold order_id. split.
  - intros H. do 6 apply String.app_inj in H. apply py_str_inj, H.
  - intros ->. reflexivity.
Qed.

(** C5 (as stated, refuted). Two orders placed by one trader for the same
    symbol and side at clock readings 1000.2 and 1000.7 get one id: the
    second overwrites the first, and a single order is pending. *)
Lemma same_second_orders_collide :
  let first := place_limit_order (10002 # 10) "t1" [] "ann" "ACME" 5 100 "buy" in
  let second :=
    place_limit_order (10007 # 10) "t2" first.2 "ann" "ACME" 7 90 "buy" in
  ¬ (10002 # 10) == (10007 # 10) ∧
  od_get first.1 first.2 = Some (Order "ann" "ACME" 5 100 "buy" "t1" "pending") ∧
  second.1 = first.1 ∧
  second.2 = [(first.1, Order "ann" "ACME" 7 90 "buy" "t2" "pending")].
Proof.
  cbv zeta. repeat split; try (vm_compute; reflexivity).
  vm_compute. discriminate.
Qed.

(** C5 (amended). The id of a limit order is made of the trader, the
    symbol, the side and the clock reading cut to whole seconds.  Placing
    an order stores it under that id and leaves every pending order with
    another id as it was; an order of the same trader, symbol and side has
    the same id exactly when it was placed in the same whole second. *)
Theorem place_limit_order_keeps_other_ids
    clock now (pending_orders : odict order) username sym n target_price order_type :
  let placed :=
    place_limit_order clock now pending_orders username sym n target_price
                      order_type in
  placed.1 = order_id username sym order_type clock ∧
  od_get placed.1 placed.2
    = Some (Order username sym n target_price order_type now "pending") ∧
  (∀ id, id ≠ placed.1 → od_get id placed.2 = od_get id pending_orders) ∧
  (∀ clock', order_id username sym order_type clock' = placed.1
             ↔ py_int clock' = py_int clock).
Proof.
  cbv zeta. unfold place_limit_order. simpl.
  split; [reflexivity|]. split; [apply od_get_set_eq|]. split.
  - intros id Hne. apply od_get_set_ne, Hne.
  - intros clock'. apply order_id_same_second.
Qed.

(** *** Creating a trailing stop *)

Lemma truthy_positive p : 0 < p → truthy (Some p) = true.
Proof.
  intros Hp. unfold truthy. apply negb_true_iff.
  destruct (Qeq_bool p 0) eqn:E; [|reflexivity].
  apply Qeq_bool_eq in E. rewrite E in Hp. exfalso. exact (Qlt_irrefl 0 Hp).
Qed.

(** C10. A trailing stop with a positive percentage, set on a held symbol
    for no more shares than are held, takes its reference price from the
    live quote whatever stop price the caller passed: the stored stop price
    is [quote * (1 - percent/100)] and the stored high is the quote.
    Without a live quote the call fails and the stop orders (as well as
    cash and holdings) are what they were. *)
Theorem set_stop_loss_trailing_uses_live_quote
    fetch_single_price now u sym n stop_price p held :
  portfolio u !! sym = Some held →
  (n <= shares held)%Z →
  0 < p →
  let r := set_stop_loss fetch_single_price now u sym n stop_price true (Some p) in
  match fetch_single_price sym with
  | Some s =>
      r.1 = true ∧
      get_stop_losses r.2 !! sym
        = Some (StopData n (price s * (1 - p / 100)) now true (Some p)
                         (Some (price s))) ∧
      balance r.2 = balance u ∧ portfolio r.2 = portfolio u
  | None =>
      r.1 = false ∧
      get_stop_losses r.2 = get_stop_losses u ∧
      balance r.2 = balance u ∧ portfolio r.2 = portfolio u
  end.
Proof.
  intros Hp Hn Hpos. unfold set_stop_loss. rewrite Hp.
  assert (E : Z.ltb (shares held) n = false) by (apply Z.ltb_ge; exact Hn).
  rewrite E, (truthy_positive p Hpos). simpl.
  destruct (fetch_single_price sym) as [s|]; simpl.
  - repeat split. unfold get_stop_losses. simpl. apply lookup_insert_eq.
  - repeat split.
Qed.

(** *** Average cost *)









(** *** Trailing stops across ticks *)

(** A stop order that is there after a pass was there before, and is
    either untouched or ratcheted from this pass's quote. *)
Lemma check_stop_losses_entry fetch_single_price u stocks sym sd' :
  get_stop_losses (check_stop_losses fetch_single_price u stocks).1 !! sym
    = Some sd' →
  ∃ sd,
    get_stop_losses u !! sym = Some sd ∧
    match current_stock stocks fetch_single_price sym with
    | Some s =>
        if new_high (price s) sd then sd' = ratchet (price s) sd else sd' = sd
    | None => sd' = sd
    end.
Proof.
  unfold check_stop_losses, get_stop_losses.
  destruct (stop_losses u) as [sl|] eqn:Hsl; simpl.
  2: { rewrite Hsl. simpl. rewrite lookup_empty. discriminate. }
  intros H. destruct (sl !! sym) as [sd|] eqn:Hsd.
  2: { rewrite stop_loss_loop_absent in H by done. discriminate. }
  exists sd. split; [reflexivity|].
  destruct (stop_loss_loop_at stocks fetch_single_price sl
              (SlState (balance u) (portfolio u) sl []) sym sd eq_refl Hsd)
    as (st1 & E1 & E2 & _ & E4).
  rewrite E4 in H. clear E4.
  destruct (st_portfolio st1 !! sym) as [held|] eqn:Hp.
  - destruct (current_stock stocks fetch_single_price sym) as [s|] eqn:Hs.
    + pose proof (stop_loss_step_at stocks fetch_single_price st1 sym sd held s Hp Hs)
        as Hstep. cbv zeta in Hstep.
      destruct (Qle_bool (price s) _).
      * destruct Hstep as [Hnone _]. congruence.
      * destruct Hstep as [Hst _]. rewrite Hst in H.
        destruct (new_high (price s) sd); congruence.
    + unfold stop_loss_step in H. rewrite Hp, Hs in H. congruence.
  - unfold stop_loss_step in H. rewrite Hp in H. simpl in H.
    rewrite lookup_delete_eq in H. discriminate.
Qed.

(** One pass on a well-formed trailing entry: it stays well formed, and
    neither the recorded high nor the stop price goes down. *)
Lemma trailing_entry_tick q sd sd' :
  sl_trailing sd = true → trailing_ok sd →
  (if new_high q sd then sd' = ratchet q sd else sd' = sd) →
  sl_trailing sd' = true ∧ trailing_ok sd' ∧
  sl_trailing_percent sd' = sl_trailing_percent sd ∧
  high_of sd <= high_of sd' ∧ sl_price sd <= sl_price sd'.
Proof.
  intros Ht (p & h & Hp & Hh & Hp0 & Hp1 & Hprice) Hcase.
  unfold new_high in Hcase. rewrite Ht, Hh in Hcase. simpl in Hcase.
  destruct (Qltb h q) eqn:Hq.
  - apply Qltb_lt in Hq. subst sd'. unfold ratchet, high_of. rewrite Hp, Hh. simpl.
    split; [exact Ht|]. split.
    + exists p, q. simpl.
      split; [reflexivity|]. split; [reflexivity|].
      split; [exact Hp0|]. split; [exact Hp1|]. apply Qeq_refl.
    + split; [reflexivity|]. split; [apply Qlt_le_weak, Hq|].
      rewrite Hprice. apply ratcheted_mono; [apply Qlt_le_weak, Hq|assumption..].
  - subst sd'. split; [exact Ht|]. split; [exists p, h; done|].
    split; [reflexivity|]. split; apply Qle_refl.
Qed.

(** Passes keep every trailing entry well formed. *)
Lemma check_stop_losses_stops_ok fetch_single_price u stocks :
  stops_ok u → stops_ok (check_stop_losses fetch_single_price u stocks).1.
Proof.
  intros Hok sym sd' Hsd' Ht'.
  destruct (check_stop_losses_entry _ _ _ _ _ Hsd') as (sd & Hsd & Hcase).
  assert (Ht : sl_trailing sd = true).
  { destruct (current_stock stocks fetch_single_price sym) as [s|];
      [destruct (new_high (price s) sd)|]; subst sd'; exact Ht'. }
  pose proof (Hok sym sd Hsd Ht) as Hsdok.
  destruct (current_stock stocks fetch_single_price sym) as [s|].
  - apply (trailing_entry_tick (price s) sd sd' Ht Hsdok Hcase).
  - subst sd'. exact Hsdok.
Qed.

Lemma run_ticks_stops_ok ticks : ∀ u, stops_ok u → stops_ok (run_ticks u ticks).
Proof.
  induction ticks as [|t ticks IH]; intros u Hok; [exact Hok|].
  apply IH, check_stop_losses_stops_ok, Hok.
Qed.

(** Over any run of passes a surviving trailing entry has only gone up. *)
Lemma run_ticks_ratchet ticks : ∀ u sym sdN,
  stops_ok u →
  get_stop_losses (run_ticks u ticks) !! sym = Some sdN →
  sl_trailing sdN = true →
  ∃ sd0,
    get_stop_losses u !! sym = Some sd0 ∧ sl_trailing sd0 = true ∧
    sl_trailing_percent sdN = sl_trailing_percent sd0 ∧
    high_of sd0 <= high_of sdN ∧ sl_price sd0 <= sl_price sdN.
Proof.
  induction ticks as [|[stocks fetch] ticks IH]; intros u sym sdN Hok HN Ht.
  - exists sdN. repeat split; try assumption; apply Qle_refl.
  - cbn [run_ticks foldl] in HN.
    destruct (IH _ sym sdN (check_stop_losses_stops_ok fetch u stocks Hok) HN Ht)
      as (sd1 & H1 & Ht1 & Hp1 & Hh1 & Hs1).
    simpl in H1.
    destruct (check_stop_losses_entry _ _ _ _ _ H1) as (sd0 & H0 & Hcase).
    assert (Ht0 : sl_trailing sd0 = true).
    { destruct (current_stock stocks fetch sym) as [s|];
        [destruct (new_high (price s) sd0)|]; subst sd1; exact Ht1. }
    pose proof (Hok sym sd0 H0 Ht0) as Hok0.
    assert (Hstep : sl_trailing_percent sd1 = sl_trailing_percent sd0 ∧
                    high_of sd0 <= high_of sd1 ∧ sl_price sd0 <= sl_price sd1).
    { destruct (current_stock stocks fetch sym) as [s|].
      - apply (trailing_entry_tick (price s) sd0 sd1 Ht0 Hok0 Hcase).
      - subst sd1. repeat split; apply Qle_refl. }
    destruct Hstep as (Hp & Hh & Hs).
    exists sd0. split; [exact H0|]. split; [exact Ht0|].
    split; [congruence|]. split; eapply Qle_trans; eassumption.
Qed.

(** [set_stop_loss] keeps the trailing entries of an account well formed
    when a trailing order comes with a percentage strictly between 0 and
    100, as the [trailstop] command guarantees. *)
Lemma set_stop_loss_stops_ok
    fetch_single_price now u sym n stop_price trailing trailing_percent :
  stops_ok u →
  (trailing = true → ∃ p, trailing_percent = Some p ∧ 0 < p ∧ p < 100) →
  stops_ok (set_stop_loss fetch_single_price now u sym n stop_price trailing
                          trailing_percent).2.
Proof.
  intros Hok Hpct. unfold set_stop_loss.
  destruct (portfolio u !! sym) as [held|]; [|exact Hok].
  destruct (Z.ltb (shares held) n); [exact Hok|].
  assert (Hsame : stops_ok (User (balance u) (portfolio u) (Some (get_stop_losses u))))
    by exact Hok.
  assert (Hins : ∀ sd, (sl_trailing sd = true → trailing_ok sd) →
            stops_ok (User (balance u) (portfolio u)
                           (Some (<[sym := sd]> (get_stop_losses u))))).
  { intros sd Hsd k sd' Hk Ht. unfold get_stop_losses in Hk. simpl in Hk.
    destruct (decide (sym = k)) as [->|Hne].
    - rewrite lookup_insert_eq in Hk. injection Hk as <-. apply Hsd, Ht.
    - rewrite lookup_insert_ne in Hk by done. exact (Hok k sd' Hk Ht). }
  destruct trailing; simpl.
  - destruct (Hpct eq_refl) as (p & -> & Hp0 & Hp1).
    rewrite (truthy_positive p Hp0).
    destruct (fetch_single_price sym) as [s|]; simpl; [|exact Hsame].
    apply Hins. intros _. exists p, (price s). simpl.
    repeat split; try assumption.
  - apply Hins. simpl. discriminate.
Qed.

(** C7. On an account whose trailing entries are as [set_stop_loss] and the
    ratchet make them, take any run of stop-loss passes and one more pass.
    A trailing order that is still there after it was there from the start
    with the same percentage; its recorded high and its stop price have
    never gone down, neither over the run nor in the last pass; and the
    last pass has changed it only if its quote was strictly above the
    recorded high, to that quote as the new high and to
    [quote * (1 - percent/100)] as the stop price. *)
Theorem trailing_stop_only_ratchets_up u ticks stocks fetch_single_price sym sd2 :
  stops_ok u →
  let u1 := run_ticks u ticks in
  let u2 := (check_stop_losses fetch_single_price u1 stocks).1 in
  get_stop_losses u2 !! sym = Some sd2 →
  sl_trailing sd2 = true →
  ∃ sd0 sd1 p h,
    get_stop_losses u !! sym = Some sd0 ∧
    get_stop_losses u1 !! sym = Some sd1 ∧
    sl_trailing_percent sd0 = Some p ∧
    sl_trailing_percent sd1 = Some p ∧
    sl_highest_price sd1 = Some h ∧
    high_of sd0 <= h ∧ h <= high_of sd2 ∧
    sl_price sd0 <= sl_price sd1 ∧ sl_price sd1 <= sl_price sd2 ∧
    match current_stock stocks fetch_single_price sym with
    | Some s =>
        if Qltb h (price s)
        then sl_highest_price sd2 = Some (price s) ∧
             sl_price sd2 = price s * (1 - p / 100)
        else sd2 = sd1
    | None => sd2 = sd1
    end.
Proof.
  intros Hok u1 u2 H2 Ht2.
  pose proof (run_ticks_stops_ok ticks u Hok) as Hok1. fold u1 in Hok1.
  destruct (check_stop_losses_entry _ _ _ _ _ H2) as (sd1 & H1 & Hcase).
  assert (Ht1 : sl_trailing sd1 = true).
  { destruct (current_stock stocks fetch_single_price sym) as [s|];
      [destruct (new_high (price s) sd1)|]; subst sd2; exact Ht2. }
  pose proof (Hok1 sym sd1 H1 Ht1) as Hwf.
  destruct (run_ticks_ratchet ticks u sym sd1 Hok H1 Ht1)
    as (sd0 & H0 & Ht0 & Hp01 & Hh01 & Hs01).
  pose proof Hwf as (p & h & Hp & Hh & Hp0 & Hp1 & Hprice).
  exists sd0, sd1, p, h.
  assert (Hh1 : high_of sd1 = h) by (unfold high_of; rewrite Hh; reflexivity).
  rewrite Hh1 in Hh01.
  split; [exact H0|]. split; [exact H1|]. split; [congruence|].
  split; [exact Hp|]. split; [exact Hh|]. split; [exact Hh01|].
  destruct (current_stock stocks fetch_single_price sym) as [s|].
  - pose proof (trailing_entry_tick (price s) sd1 sd2 Ht1 Hwf Hcase)
      as (_ & _ & _ & Hh12 & Hs12).
    rewrite Hh1 in Hh12.
    split; [exact Hh12|]. split; [exact Hs01|]. split; [exact Hs12|].
    unfold new_high in Hcase. rewrite Ht1, Hh in Hcase. simpl in Hcase.
    destruct (Qltb h (price s)); [|exact Hcase].
    subst sd2. unfold ratchet. rewrite Hp. simpl. split; reflexivity.
  - subst sd2. rewrite Hh1.
    split; [apply Qle_refl|]. split; [exact Hs01|]. split; [apply Qle_refl|].
    reflexivity.
Qed.

(** *** A new high does not trigger *)


(** *** Refused market orders *)

Lemma times_nonneg p n : 0 <= p → (0 <= n)%Z → 0 <= times p n.
Proof.
  intros Hp Hn. unfold times. apply Qmult_le_0_compat; [exact Hp|].
  change 0 with (inject_Z 0). rewrite <- Zle_Qle. exact Hn.
Qed.

Lemma buy_at_account_ok u sym n p confirm :
  account_ok u → account_ok (buy_at u sym n p confirm).2.
Proof.
  intros [Hcash Hpf]. unfold buy_at.
  destruct (Z.leb n 0) eqn:En; [split; assumption|].
  destruct (Qltb (balance u) (times p n)) eqn:Ec; [split; assumption|].
  destruct confirm; simpl; [|split; assumption].
  apply Z.leb_gt in En. apply Qltb_ge in Ec. split; simpl; [lra|].
  intros k h Hk. unfold add_shares in Hk.
  destruct (portfolio u !! sym) as [old|] eqn:Hold;
    (destruct (decide (sym = k)) as [->|Hne];
     [rewrite lookup_insert_eq in Hk; injection Hk as <-; simpl
     |rewrite lookup_insert_ne in Hk by done; exact (Hpf k h Hk)]).
  - pose proof (Hpf k old Hold). lia.
  - exact En.
Qed.

Lemma main_sell_account_ok fetch_single_price u stocks sym n confirm s :
  current_stock stocks fetch_single_price sym = Some s → 0 <= price s →
  account_ok u →
  account_ok (main_sell fetch_single_price u stocks sym n confirm).2.
Proof.
  intros Hs Hprice [Hcash Hpf]. unfold main_sell.
  destruct (portfolio u !! sym) as [held|] eqn:Hheld; [|split; assumption].
  rewrite Hs.
  destruct (Z.leb n 0) eqn:En; [split; assumption|].
  destruct (Z.ltb (shares held) n) eqn:Eh; [split; assumption|].
  destruct confirm; simpl; [|split; assumption].
  apply Z.leb_gt in En. apply Z.ltb_ge in Eh. split; simpl.
  - pose proof (times_nonneg (price s) n Hprice ltac:(lia)). lra.
  - intros k h Hk. unfold remove_shares in Hk.
    destruct (Z.eqb (shares held - n) 0) eqn:E0.
    + destruct (decide (sym = k)) as [->|Hne].
      * rewrite lookup_delete_eq in Hk. discriminate.
      * rewrite lookup_delete_ne in Hk by done. exact (Hpf k h Hk).
    + apply Z.eqb_neq in E0. destruct (decide (sym = k)) as [->|Hne].
      * rewrite lookup_insert_eq in Hk. injection Hk as <-. simpl. lia.
      * rewrite lookup_insert_ne in Hk by done. exact (Hpf k h Hk).
Qed.

(** C9 (as stated, refuted). A buy at a quote of 0 violates [price > 0] and
    is executed all the same: five shares are added to the holding. *)
Lemma zero_price_buy_is_executed :
  let r := main_buy no_quotes ann (acme_at 0) "ACME" 5 true in
  r.1 = Executed ∧
  portfolio ann !! "ACME" = Some (Holding 3 80) ∧
  (∃ h, portfolio r.2 !! "ACME" = Some h ∧ shares h = 8%Z) ∧
  r.2 ≠ ann.
Proof.
  cbv zeta. split; [vm_compute; reflexivity|]. split; [vm_compute; reflexivity|].
  split.
  - eexists. split; [vm_compute; reflexivity|reflexivity].
  - intros E.
    assert (H : portfolio (main_buy no_quotes ann (acme_at 0) "ACME" 5 true).2
                !! "ACME" = portfolio ann !! "ACME") by (rewrite E; reflexivity).
    vm_compute in H. discriminate.
Qed.

(** C9 (amended). With a quote at hand, a buy of no shares or of more than
    the cash pays for, and a sell of a symbol that is not held, of no
    shares or of more shares than are held, is answered with an error and
    leaves the account as it was.  The price is the quote's and is not
    checked.  When the quote is not negative, neither command, executed or
    not, leaves the cash negative or a holding without shares. *)
Theorem refused_market_orders_change_nothing
    fetch_single_price u stocks sym n confirm s :
  current_stock stocks fetch_single_price sym = Some s →
  let bought := main_buy fetch_single_price u stocks sym n confirm in
  let sold := main_sell fetch_single_price u stocks sym n confirm in
  ((n <= 0)%Z → bought = (InvalidShares, u)) ∧
  ((0 < n)%Z → balance u < times (price s) n →
     bought = (InsufficientBalance, u)) ∧
  (portfolio u !! sym = None → sold = (NotOwned, u)) ∧
  (∀ held, portfolio u !! sym = Some held →
     (n <= 0)%Z ∨ (shares held < n)%Z → sold = (InvalidShares, u)) ∧
  (0 <= price s → account_ok u → account_ok bought.2 ∧ account_ok sold.2).
Proof.
  intros Hs. cbv zeta. unfold main_buy. rewrite Hs.
  split; [|split; [|split; [|split]]].
  - intros Hn. unfold buy_at.
    assert (E : Z.leb n 0 = true) by (apply Z.leb_le; exact Hn).
    rewrite E. reflexivity.
  - intros Hn Hc. unfold buy_at.
    assert (E : Z.leb n 0 = false) by (apply Z.leb_gt; exact Hn).
    assert (E' : Qltb (balance u) (times (price s) n) = true)
      by (apply Qltb_lt; exact Hc).
    rewrite E, E'. reflexivity.
  - intros Hnone. unfold main_sell. rewrite Hnone. reflexivity.
  - intros held Hheld Hbad. unfold main_sell. rewrite Hheld, Hs.
    assert (E : Z.leb n 0 || Z.ltb (shares held) n = true).
    { apply orb_true_iff. destruct Hbad as [H|H];
        [left; apply Z.leb_le, H | right; apply Z.ltb_lt, H]. }
    rewrite E. reflexivity.
  - intros Hprice Hok. split.
    + apply buy_at_account_ok, Hok.
    + eapply main_sell_account_ok; eassumption.
Qed.

(** *** The theorems at work on the example accounts *)


(** A second order of ann, placed while [ann_buy] is pending. *)
Lemma place_limit_order_keeps_other_ids_witness :
  let placed :=
    place_limit_order (10007 # 10) "t2" ann_buy "ann" "ACME" 7 90 "buy" in
  placed.1 = order_id "ann" "ACME" "buy" (10007 # 10) ∧
  od_get placed.1 placed.2 = Some (Order "ann" "ACME" 7 90 "buy" "t2" "pending") ∧
  (∀ id, id ≠ placed.1 → od_get id placed.2 = od_get id ann_buy) ∧
  (∀ clock', order_id "ann" "ACME" "buy" clock' = placed.1
             ↔ py_int clock' = py_int (10007 # 10)).
Proof.
  apply (place_limit_order_keeps_other_ids (10007 # 10) "t2" ann_buy
           "ann" "ACME" 7 90 "buy").
Defined.


(** [trailing_acme] through a pass at 120 and a further pass at 118. *)
Lemma trailing_stop_only_ratchets_up_witness :
  ∃ sd0 sd1 p h,
    get_stop_losses trailing_acme !! "ACME" = Some sd0 ∧
    get_stop_losses (run_ticks trailing_acme [(acme_at 120, no_quotes)]) !! "ACME"
      = Some sd1 ∧
    sl_trailing_percent sd0 = Some p ∧
    sl_trailing_percent sd1 = Some p ∧
    sl_highest_price sd1 = Some h ∧
    high_of sd0 <= h ∧
    h <= high_of (StopData 10 (120 * (1 - 5 / 100)) "t0" true (Some 5) (Some 120)) ∧
    sl_price sd0 <= sl_price sd1 ∧
    sl_price sd1
      <= sl_price (StopData 10 (120 * (1 - 5 / 100)) "t0" true (Some 5) (Some 120)) ∧
    match current_stock (acme_at 118) no_quotes "ACME" with
    | Some s =>
        if Qltb h (price s)
        then sl_highest_price
               (StopData 10 (120 * (1 - 5 / 100)) "t0" true (Some 5) (Some 120))
             = Some (price s) ∧
             sl_price
               (StopData 10 (120 * (1 - 5 / 100)) "t0" true (Some 5) (Some 120))
             = price s * (1 - p / 100)
        else StopData 10 (120 * (1 - 5 / 100)) "t0" true (Some 5) (Some 120) = sd1
    | None => StopData 10 (120 * (1 - 5 / 100)) "t0" true (Some 5) (Some 120) = sd1
    end.
Proof.
  apply (trailing_stop_only_ratchets_up trailing_acme
           [(acme_at 120, no_quotes)] (acme_at 118) no_quotes "ACME"
           (StopData 10 (120 * (1 - 5 / 100)) "t0" true (Some 5) (Some 120))).
  - apply set_stop_loss_stops_ok.
    + intros sym sd H. discriminate H.
    + intros _. exists 5. repeat split.
  - vm_compute. reflexivity.
  - reflexivity.
Defined.


(** [ann], with 500 in cash and three shares, asks for ten at a quote of 90. *)
Lemma refused_market_orders_change_nothing_witness :
  let bought := main_buy no_quotes ann (acme_at 90) "ACME" 10 true in
  let sold := main_sell no_quotes ann (acme_at 90) "ACME" 10 true in
  ((10 <= 0)%Z → bought = (InvalidShares, ann)) ∧
  ((0 < 10)%Z → balance ann < times 90 10 → bought = (InsufficientBalance, ann)) ∧
  (portfolio ann !! "ACME" = None → sold = (NotOwned, ann)) ∧
  (∀ held, portfolio ann !! "ACME" = Some held →
     (10 <= 0)%Z ∨ (shares held < 10)%Z → sold = (InvalidShares, ann)) ∧
  (0 <= 90 → account_ok ann → account_ok bought.2 ∧ account_ok sold.2).
Proof.
  apply (refused_market_orders_change_nothing no_quotes ann (acme_at 90)
           "ACME" 10 true (Stock "ACME" 90)).
  reflexivity.
Defined.

(** [trailstop acme 10 5] on [ten_acme] with ACME quoted live at 100. *)
Lemma set_stop_loss_trailing_uses_live_quote_witness :
  let r := set_stop_loss (live_acme 100) "t0" ten_acme "ACME" 10 0 true (Some 5) in
  r.1 = true ∧
  get_stop_losses r.2 !! "ACME"
    = Some (StopData 10 (100 * (1 - 5 / 100)) "t0" true (Some 5) (Some 100)) ∧
  balance r.2 = balance ten_acme ∧ portfolio r.2 = portfolio ten_acme.
Proof.
  apply (set_stop_loss_trailing_uses_live_quote (live_acme 100) "t0" ten_acme
           "ACME" 10 0 5 (Holding 10 100)).
  - reflexivity.
  - vm_compute. discriminate.
  - reflexivity.
Defined.

(** ** Further properties of the stop-loss pass *)

(** A stop order left by a pass is on a held symbol and, if the symbol has
    a quote, is neither at a new high nor at its trigger. *)
Lemma check_stop_losses_survivor fetch_single_price u stocks sym sd' :
  get_stop_losses (check_stop_losses fetch_single_price u stocks).1 !! sym
    = Some sd' →
  is_Some (portfolio (check_stop_losses fetch_single_price u stocks).1 !! sym) ∧
  match current_stock stocks fetch_single_price sym with
  | Some s =>
      new_high (price s) sd' = false ∧
      Qle_bool (price s) (sl_price sd') = false
  | None => True
  end.
Proof.
  intros H. split.
  { apply check_stop_losses_stops_held. rewrite H. eauto. }
  revert H. unfold check_stop_losses, get_stop_losses.
  destruct (stop_losses u) as [sl|] eqn:Hsl; simpl.
  2: { rewrite Hsl. simpl. rewrite lookup_empty. discriminate. }
  intros H. destruct (sl !! sym) as [sd|] eqn:Hsd.
  2: { rewrite stop_loss_loop_absent in H by done. discriminate. }
  destruct (stop_loss_loop_at stocks fetch_single_price sl
              (SlState (balance u) (portfolio u) sl []) sym sd eq_refl Hsd)
    as (st1 & E1 & E2 & _ & E4).
  rewrite E4 in H. clear E4.
  destruct (current_stock stocks fetch_single_price sym) as [s|] eqn:Hs; [|done].
  destruct (st_portfolio st1 !! sym) as [held|] eqn:Hp.
  - pose proof (stop_loss_step_at stocks fetch_single_price st1 sym sd held s Hp Hs)
      as Hstep. cbv zeta in Hstep.
    destruct (new_high (price s) sd) eqn:Hnh.
    + destruct (Qle_bool (price s) (sl_price (ratchet (price s) sd))) eqn:Hle.
      * destruct Hstep as [Hnone _]. congruence.
      * destruct Hstep as [Hst _]. rewrite Hst in H. injection H as <-.
        split; [|exact Hle]. unfold new_high, ratchet. simpl.
        apply andb_false_iff. right. apply Qltb_ge, Qle_refl.
    + destruct (Qle_bool (price s) (sl_price sd)) eqn:Hle.
      * destruct Hstep as [Hnone _]. congruence.
      * destruct Hstep as [Hst _]. rewrite Hst, E2 in H. injection H as <-.
        split; assumption.
  - unfold stop_loss_step in H. rewrite Hp in H. simpl in H.
    rewrite lookup_delete_eq in H. discriminate.
Qed.

(** Iterations over held symbols without a quote, or with a quote that is
    neither a new high nor a trigger, change nothing. *)
Lemma stop_loss_loop_idle stocks fetch_single_price l st :
  (∀ sym sd, (sym, sd) ∈ l →
     is_Some (st_portfolio st !! sym) ∧
     match current_stock stocks fetch_single_price sym with
     | Some s =>
         new_high (price s) sd = false ∧ Qle_bool (price s) (sl_price sd) = false
     | None => True
     end) →
  foldl (stop_loss_step stocks fetch_single_price) st l = st.
Proof.
  induction l as [|[sym sd] l IH]; intros H; [reflexivity|].
  cbn [foldl].
  assert (E : stop_loss_step stocks fetch_single_price st (sym, sd) = st).
  { destruct (H sym sd) as [[held Hheld] Hq]; [left|].
    unfold stop_loss_step. rewrite Hheld.
    destruct (current_stock stocks fetch_single_price sym) as [s|]; [|reflexivity].
    destruct Hq as [-> Hle]. simpl. rewrite Hle. destruct st; reflexivity. }
  rewrite E. apply IH. intros k v Hin. apply H. right. exact Hin.
Qed.

(** X1. A stop-loss pass is idempotent: run again on its own result with
    the same quotes it changes nothing and executes nothing. *)
Theorem check_stop_losses_idempotent fetch_single_price u stocks :
  check_stop_losses fetch_single_price
    (check_stop_losses fetch_single_price u stocks).1 stocks
  = ((check_stop_losses fetch_single_price u stocks).1, []).
Proof.
  pose proof (check_stop_losses_survivor fetch_single_price u stocks) as Hsurv.
  destruct (stop_losses u) as [sl|] eqn:Hsl.
  - set (st := foldl (stop_loss_step stocks fetch_single_price)
                 (SlState (balance u) (portfolio u) sl []) (map_to_list sl)).
    assert (Hchk : check_stop_losses fetch_single_price u stocks
                   = (User (st_balance st) (st_portfolio st) (Some (st_stops st)),
                      st_executed st))
      by (unfold check_stop_losses; rewrite Hsl; reflexivity).
    rewrite Hchk in Hsurv |- *. cbn [fst] in Hsurv |- *.
    unfold check_stop_losses. cbn [stop_losses balance portfolio].
    rewrite stop_loss_loop_idle; [reflexivity|].
    intros sym sd Hin. apply elem_of_map_to_list in Hin.
    apply (Hsurv sym sd). exact Hin.
  - assert (Hchk : check_stop_losses fetch_single_price u stocks = (u, []))
      by (unfold check_stop_losses; rewrite Hsl; reflexivity).
    rewrite Hchk. cbn [fst]. exact Hchk.
Qed.

(** The three ways an iteration can go: orphan cleanup, no quote, or a
    quote that triggers the order or does not. *)
Lemma stop_loss_step_cases stocks fetch_single_price st sym sd :
  (st_portfolio st !! sym = None ∧
   stop_loss_step stocks fetch_single_price st (sym, sd)
   = SlState (st_balance st) (st_portfolio st) (delete sym (st_stops st))
             (st_executed st))
  ∨ (is_Some (st_portfolio st !! sym) ∧
     current_stock stocks fetch_single_price sym = None ∧
     stop_loss_step stocks fetch_single_price st (sym, sd) = st)
  ∨ (∃ held s sd' stops',
       st_portfolio st !! sym = Some held ∧
       current_stock stocks fetch_single_price sym = Some s ∧
       sd' = (if new_high (price s) sd then ratchet (price s) sd else sd) ∧
       stops' = (if new_high (price s) sd
                 then <[sym := ratchet (price s) sd]> (st_stops st)
                 else st_stops st) ∧
       ((price s <= sl_price sd' ∧
         stop_loss_step stocks fetch_single_price st (sym, sd)
         = SlState (st_balance st + times (price s) (sl_shares sd))
                   (if Z.leb (shares held) (sl_shares sd)
                    then delete sym (st_portfolio st)
                    else <[sym := Holding (shares held - sl_shares sd)
                                          (avg_cost held)]> (st_portfolio st))
                   (delete sym stops')
                   (st_executed st ++
                    [StopExecution sym (sl_shares sd) (price s)
                                   (times (price s) (sl_shares sd))
                                   (sl_price sd') (sl_trailing sd)])%list)
        ∨ (sl_price sd' < price s ∧
           stop_loss_step stocks fetch_single_price st (sym, sd)
           = SlState (st_balance st) (st_portfolio st) stops' (st_executed st)))).
Proof.
  unfold stop_loss_step.
  destruct (st_portfolio st !! sym) as [held|] eqn:Hp; [|left; done].
  right. destruct (current_stock stocks fetch_single_price sym) as [s|] eqn:Hs.
  2: { left. split; [eauto|done]. }
  right. exists held, s.
  destruct (new_high (price s) sd); simpl;
    (destruct (Qle_bool (price s) _) eqn:Hle;
     [apply Qle_bool_iff in Hle | apply Qle_bool_gt in Hle]);
    eexists _, _; (split; [reflexivity|]); (split; [reflexivity|]);
    (split; [reflexivity|]); (split; [reflexivity|]);
    [left|right|left|right]; split; done.
Qed.

(** X2. A fixed stop order on a held symbol with a quote is triggered by a
    pass exactly when the quote is at or below its stop price: then the
    order is deleted and the holding loses the order's shares (all of it
    when the order covers the holding); otherwise order and holding stay
    as they are. *)
Theorem fixed_stop_triggers_at_or_below
    fetch_single_price u stocks sym sd held s :
  get_stop_losses u !! sym = Some sd →
  sl_trailing sd = false →
  portfolio u !! sym = Some held →
  current_stock stocks fetch_single_price sym = Some s →
  let u' := (check_stop_losses fetch_single_price u stocks).1 in
  (price s <= sl_price sd →
     get_stop_losses u' !! sym = None ∧
     portfolio u' !! sym
     = if Z.leb (shares held) (sl_shares sd) then None
       else Some (Holding (shares held - sl_shares sd) (avg_cost held))) ∧
  (sl_price sd < price s →
     get_stop_losses u' !! sym = Some sd ∧ portfolio u' !! sym = Some held).
Proof.
  intros Hsd Ht Hheld Hs. cbv zeta.
  unfold get_stop_losses in Hsd.
  destruct (stop_losses u) as [sl|] eqn:Hsl;
    [|simpl in Hsd; rewrite lookup_empty in Hsd; discriminate].
  simpl in Hsd. unfold check_stop_losses, get_stop_losses. rewrite Hsl. simpl.
  destruct (stop_loss_loop_at stocks fetch_single_price sl
              (SlState (balance u) (portfolio u) sl []) sym sd eq_refl Hsd)
    as (st1 & E1 & E2 & E3 & E4).
  rewrite E3, E4. cbn [st_portfolio] in E1. rewrite Hheld in E1.
  pose proof (stop_loss_step_at stocks fetch_single_price st1 sym sd held s E1 Hs)
    as Hstep. cbv zeta in Hstep.
  assert (Hnh : new_high (price s) sd = false)
    by (unfold new_high; rewrite Ht; reflexivity).
  rewrite Hnh in Hstep. split.
  - intros Hle. apply Qle_bool_iff in Hle. rewrite Hle in Hstep.
    destruct Hstep as (H1 & _ & H3). split; assumption.
  - intros Hgt. apply Qle_bool_gt in Hgt. rewrite Hgt in Hstep.
    destruct Hstep as (H1 & _ & H3). rewrite H1, H3. split; assumption.
Qed.

(** Cash follows the executions recorded by the loop. *)
Lemma stop_loss_loop_cash stocks fetch_single_price b0 l : ∀ st,
  st_balance st = credited b0 (st_executed st) →
  st_balance (foldl (stop_loss_step stocks fetch_single_price) st l)
  = credited b0 (st_executed (foldl (stop_loss_step stocks fetch_single_price) st l)).
Proof.
  induction l as [|[sym sd] l IH]; intros st Hst; [exact Hst|].
  cbn [foldl]. apply IH.
  destruct (stop_loss_step_cases stocks fetch_single_price st sym sd)
    as [[_ ->]|[(_ & _ & ->)|(held & s & sd' & stops' & _ & _ & _ & _ & [[_ ->]|[_ ->]])]];
    cbn [st_balance st_executed]; try exact Hst.
  unfold credited. rewrite foldl_snoc. cbn [se_revenue].
  fold (credited b0 (st_executed st)). rewrite Hst. reflexivity.
Qed.

(** X3. A pass accounts for every change of cash: the balance afterwards
    is the balance before plus the revenues of the executions it returns,
    and a holding whose symbol has no stop order is left as it was. *)
Theorem check_stop_losses_accounts fetch_single_price u stocks :
  let r := check_stop_losses fetch_single_price u stocks in
  balance r.1 = credited (balance u) r.2 ∧
  ∀ sym, get_stop_losses u !! sym = None → portfolio r.1 !! sym = portfolio u !! sym.
Proof.
  cbv zeta. unfold check_stop_losses, get_stop_losses.
  destruct (stop_losses u) as [sl|] eqn:Hsl; simpl.
  - split.
    + apply stop_loss_loop_cash. reflexivity.
    + intros sym Hnone.
      assert (Hnot : sym ∉ (map_to_list sl).*1).
      { intros Hc. apply list_elem_of_fmap in Hc.
        destruct Hc as ([k v] & -> & Hin).
        apply elem_of_map_to_list in Hin. simpl in Hnone. congruence. }
      destruct (stop_loss_loop_other stocks fetch_single_price _
                  (SlState (balance u) (portfolio u) sl []) sym Hnot) as [-> _].
      reflexivity.
  - split; reflexivity.
Qed.

Lemma stop_loss_loop_records stocks fetch_single_price sl l : ∀ st,
  (∀ k v, (k, v) ∈ l → sl !! k = Some v) →
  Forall (stop_record_ok stocks fetch_single_price sl) (st_executed st) →
  Forall (stop_record_ok stocks fetch_single_price sl)
         (st_executed (foldl (stop_loss_step stocks fetch_single_price) st l)).
Proof.
  induction l as [|[sym sd] l IH]; intros st Hl Hst; [exact Hst|].
  cbn [foldl]. apply IH; [intros k v Hin; apply Hl; right; exact Hin|].
  destruct (stop_loss_step_cases stocks fetch_single_price st sym sd)
    as [[_ ->]|[(_ & _ & ->)|(held & s & sd' & stops' & _ & Hs & _ & _
                              & [[Hle ->]|[_ ->]])]];
    cbn [st_executed]; try exact Hst.
  apply Forall_app. split; [exact Hst|]. apply Forall_singleton.
  exists sd, s. cbn. repeat split; try done. apply Hl. left.
Qed.

Lemma stop_loss_loop_symbols stocks fetch_single_price l : ∀ st,
  ∃ ks,
    se_symbol <$> st_executed (foldl (stop_loss_step stocks fetch_single_price) st l)
    = ((se_symbol <$> st_executed st) ++ ks)%list ∧
    sublist ks l.*1.
Proof.
  induction l as [|[sym sd] l IH]; intros st.
  - exists []. rewrite app_nil_r. split; [reflexivity|constructor].
  - cbn [foldl].
    destruct (IH (stop_loss_step stocks fetch_single_price st (sym, sd)))
      as (ks & Hks & Hsub).
    rewrite Hks.
    destruct (stop_loss_step_cases stocks fetch_single_price st sym sd)
      as [[_ ->]|[(_ & _ & ->)|(held & s & sd' & stops' & _ & _ & _ & _
                                & [[_ ->]|[_ ->]])]];
      cbn [st_executed].
    1, 2, 4: exists ks; split; [reflexivity|]; rewrite fmap_cons;
      apply sublist_cons, Hsub.
    exists (sym :: ks). split.
    + rewrite fmap_app. cbn. rewrite <- app_assoc. reflexivity.
    + rewrite fmap_cons. apply sublist_skip, Hsub.
Qed.

(** X4. The executions a pass returns are at most one per symbol, and each
    is for an order of the account as it was before the pass: its shares
    and trailing flag are the order's, its price is the quote of the
    symbol, its revenue is that price times the order's shares, and the
    price is at or below the recorded stop price. *)
Theorem check_stop_losses_records fetch_single_price u stocks :
  let executed := (check_stop_losses fetch_single_price u stocks).2 in
  Forall (stop_record_ok stocks fetch_single_price (get_stop_losses u)) executed ∧
  NoDup (se_symbol <$> executed).
Proof.
  cbv zeta. unfold check_stop_losses, get_stop_losses.
  destruct (stop_losses u) as [sl|] eqn:Hsl; simpl.
  2: { split; constructor. }
  split.
  - apply stop_loss_loop_records; [|constructor].
    intros k v Hin. apply elem_of_map_to_list, Hin.
  - destruct (stop_loss_loop_symbols stocks fetch_single_price (map_to_list sl)
                (SlState (balance u) (portfolio u) sl [])) as (ks & -> & Hsub).
    simpl. eapply sublist_NoDup; [|exact Hsub]. apply NoDup_fst_map_to_list.
Qed.

(** The loop keeps the cash non-negative and the holdings positive. *)
Lemma stop_loss_loop_account_ok stocks fetch_single_price l : ∀ st,
  quotes_nonneg stocks fetch_single_price →
  (∀ k v, (k, v) ∈ l → (0 <= sl_shares v)%Z) →
  0 <= st_balance st →
  (∀ k h, st_portfolio st !! k = Some h → (0 < shares h)%Z) →
  let st' := foldl (stop_loss_step stocks fetch_single_price) st l in
  0 <= st_balance st' ∧
  (∀ k h, st_portfolio st' !! k = Some h → (0 < shares h)%Z).
Proof.
  induction l as [|[sym sd] l IH]; intros st Hq Hl Hb Hh; [split; assumption|].
  cbn [foldl]. cbv zeta.
  assert (Hsd : (0 <= sl_shares sd)%Z) by (apply (Hl sym); left).
  apply IH; [exact Hq|intros k v Hin; apply (Hl k); right; exact Hin|..];
  destruct (stop_loss_step_cases stocks fetch_single_price st sym sd)
    as [[_ ->]|[(_ & _ & ->)|(held & s & sd' & stops' & Hheld & Hs & _ & _
                              & [[_ ->]|[_ ->]])]];
    cbn [st_balance st_portfolio]; try assumption.
  - pose proof (times_nonneg (price s) (sl_shares sd) (Hq sym s Hs) Hsd). lra.
  - intros k h Hk. destruct (Z.leb (shares held) (sl_shares sd)) eqn:E.
    + destruct (decide (sym = k)) as [->|Hne].
      * rewrite lookup_delete_eq in Hk. discriminate.
      * rewrite lookup_delete_ne in Hk by done. exact (Hh k h Hk).
    + apply Z.leb_gt in E. destruct (decide (sym = k)) as [->|Hne].
      * rewrite lookup_insert_eq in Hk. injection Hk as <-. simpl. lia.
      * rewrite lookup_insert_ne in Hk by done. exact (Hh k h Hk).
Qed.

(** X5. With no negative quote and no stop order for a negative number of
    shares, a pass leaves a sound account sound: the cash is not negative
    and every holding has a positive share count. *)
Theorem check_stop_losses_account_ok fetch_single_price u stocks :
  quotes_nonneg stocks fetch_single_price →
  stop_shares_nonneg u →
  account_ok u →
  account_ok (check_stop_losses fetch_single_price u stocks).1.
Proof.
  intros Hq Hn [Hcash Hpf]. unfold check_stop_losses.
  destruct (stop_losses u) as [sl|] eqn:Hsl; [|split; assumption].
  cbn [fst].
  destruct (stop_loss_loop_account_ok stocks fetch_single_price (map_to_list sl)
              (SlState (balance u) (portfolio u) sl []))
    as [H1 H2]; try assumption.
  - intros k v Hin. apply elem_of_map_to_list in Hin. apply (Hn k v).
    unfold get_stop_losses. rewrite Hsl. exact Hin.
  - split; assumption.
Qed.

(** ** Net worth and trades at the quote *)



Lemma foldl_sum_ext_in {A} (g g' : A → Q) l a :
  (∀ x, x ∈ l → g x = g' x) →
  foldl (fun acc x => acc + g x) a l = foldl (fun acc x => acc + g' x) a l.
Proof.
  revert a. induction l as [|x l IH]; intros a H; cbn [foldl]; [reflexivity|].
  rewrite (H x) by left. apply IH. intros y Hy. apply H. right. exact Hy.
Qed.

(** The summand of a holding whose symbol has a quote. *)
Lemma net_worth_term_quoted stocks fetch_single_price sym data s :
  current_stock stocks fetch_single_price sym = Some s →
  net_worth_term stocks fetch_single_price sym data
  = inject_Z (shares data) * price s.
Proof.
  unfold current_stock, net_worth_term.
  destruct (find_stock stocks sym) as [t|]; [intros [= ->]; reflexivity|].
  intros ->. reflexivity.
Qed.

(** X6. [calculate_net_worth] and the net worth of the portfolio screen
    agree whenever every held symbol has a quote. *)
Theorem net_worths_agree_when_quoted fetch_single_price u stocks :
  (∀ sym held, portfolio u !! sym = Some held →
     is_Some (current_stock stocks fetch_single_price sym)) →
  calculate_net_worth fetch_single_price u stocks
  = show_enhanced_portfolio_net_worth fetch_single_price u stocks.
Proof.
  intros Hq. unfold calculate_net_worth, show_enhanced_portfolio_net_worth.
  cbv zeta. f_equal. apply foldl_sum_ext_in. intros [sym held] Hin.
  apply elem_of_map_to_list in Hin. destruct (Hq sym held Hin) as [s Hs]. simpl.
  rewrite (net_worth_term_quoted _ _ _ _ _ Hs). unfold market_value.
  rewrite Hs. reflexivity.
Qed.

Section HoldingsValue.
Variable stocks : list stock.
Variable fetch_single_price : quote_source.

Local Abbreviation value pf :=
  (foldl (fun acc (kv : string * holding) =>
            acc + net_worth_term stocks fetch_single_price kv.1 kv.2)
         0 (map_to_list pf)).



End HoldingsValue.


(** ** Further properties of market orders *)



(** ** Selling a percentage *)




(** ** Cancelling orders *)

(** X11. Cancelling stop orders touches nothing but stop orders: with a
    symbol it deletes that symbol's order and leaves the others, without
    one it deletes them all; cash, holdings and pending limit orders are
    as before. *)
Theorem cancel_stop_orders u pending_orders username symbol :
  let r := cancel_order u pending_orders username "stoploss" symbol in
  r.2 = pending_orders ∧ balance r.1 = balance u ∧ portfolio r.1 = portfolio u ∧
  match given symbol with
  | Some sym =>
      get_stop_losses r.1 !! sym = None ∧
      ∀ k, k ≠ sym → get_stop_losses r.1 !! k = get_stop_losses u !! k
  | None => get_stop_losses r.1 = ∅
  end.
Proof.
  cbv zeta. unfold cancel_order, get_stop_losses. rewrite String.eqb_refl.
  destruct (stop_losses u) as [sl|] eqn:Hsl.
  - destruct (given symbol) as [sym|].
    + destruct (sl !! sym) eqn:Hsym; cbn [fst snd balance portfolio stop_losses].
      * repeat split. { apply lookup_delete_eq. }
        intros k Hk. simpl. apply lookup_delete_ne. done.
      * rewrite Hsl. repeat split. exact Hsym.
    + repeat split.
  - cbn [fst snd]. rewrite Hsl. destruct (given symbol); repeat split.
Qed.

Lemma od_del_filter {V} k (d : odict V) :
  od_del k d = List.filter (fun kv => negb (String.eqb k kv.1)) d.
Proof.
  induction d as [|[k' v] d IH]; simpl; [reflexivity|].
  destruct (String.eqb k k'); simpl; [exact IH|]. rewrite IH. reflexivity.
Qed.

Lemma od_get_del_ne {V} k k' (d : odict V) :
  k' ≠ k → od_get k' (od_del k d) = od_get k' d.
Proof.
  intros Hne. induction d as [|[k0 v0] d IH]; simpl; [reflexivity|].
  destruct (String.eqb k k0) eqn:E; simpl.
  - apply String.eqb_eq in E. subst k0.
    apply String.eqb_neq in Hne. rewrite Hne. exact IH.
  - rewrite IH. reflexivity.
Qed.

Lemma od_get_del_eq {V} k (d : odict V) : od_get k (od_del k d) = None.
Proof.
  induction d as [|[k0 v0] d IH]; simpl; [reflexivity|].
  destruct (String.eqb k k0) eqn:E; simpl; [exact IH|]. rewrite E. exact IH.
Qed.

Lemma od_get_elem {V} k (v : V) (d : odict V) :
  od_get k d = Some v → (k, v) ∈ d.
Proof.
  induction d as [|[k0 v0] d IH]; simpl; [discriminate|].
  destruct (String.eqb k k0) eqn:E.
  - apply String.eqb_eq in E. subst k0. intros [= ->]. left.
  - intros H. right. apply IH, H.
Qed.

Lemma od_elem_get {V} k (v : V) (d : odict V) :
  NoDup d.*1 → (k, v) ∈ d → od_get k d = Some v.
Proof.
  induction d as [|[k0 v0] d IH]; intros Hnd Hin; [inversion Hin|].
  rewrite fmap_cons in Hnd. apply NoDup_cons in Hnd. destruct Hnd as [Hk0 Hnd].
  apply elem_of_cons in Hin. destruct Hin as [[= -> ->]|Hin]; simpl.
  - rewrite String.eqb_refl. reflexivity.
  - destruct (String.eqb k k0) eqn:E; [|apply IH; assumption].
    apply String.eqb_eq in E. subst k0. exfalso. apply Hk0.
    apply list_elem_of_fmap. exists (k, v). split; [reflexivity|exact Hin].
Qed.

(** Deleting the ids of a list for which [D] holds, one after the other, is
    filtering the book. *)
Lemma od_del_each {V} (D : string → bool) ids : ∀ d : odict V,
  foldl (fun p id => if D id then od_del id p else p) d ids
  = List.filter (fun kv => negb (existsb (String.eqb kv.1) ids && D kv.1)) d.
Proof.
  induction ids as [|id ids IH]; intros d; cbn [foldl].
  - simpl. induction d as [|kv d IHd]; simpl; [reflexivity|].
    rewrite <- IHd. reflexivity.
  - rewrite IH. destruct (D id) eqn:HD.
    + rewrite od_del_filter. induction d as [|[k v] d IHd]; simpl; [reflexivity|].
      rewrite (String.eqb_sym id k).
      destruct (String.eqb k id) eqn:E; simpl.
      * apply String.eqb_eq in E. subst k. rewrite HD. simpl. exact IHd.
      * destruct (negb (existsb (String.eqb k) ids && D k)); simpl;
          rewrite IHd; reflexivity.
    + induction d as [|[k v] d IHd]; simpl; [reflexivity|].
      destruct (String.eqb k id) eqn:E; simpl.
      * apply String.eqb_eq in E. subst k. rewrite HD, andb_false_r. simpl.
        rewrite IHd. reflexivity.
      * rewrite IHd. reflexivity.
Qed.

(** The filter of [cancel_order], against the ids it collects. *)
Lemma user_orders_spec (pending_orders : odict order) username k o :
  NoDup pending_orders.*1 → (k, o) ∈ pending_orders →
  existsb (String.eqb k)
    (List.map fst
       (List.filter (fun kv => String.eqb (o_user kv.2) username) pending_orders))
  = String.eqb (o_user o) username.
Proof.
  intros Hnd Hin. apply eq_true_iff_eq. rewrite existsb_exists. split.
  - intros (k' & Hk' & E). apply String.eqb_eq in E. subst k'.
    apply in_map_iff in Hk'. destruct Hk' as ([k1 o1] & Hk1 & Hf). simpl in Hk1.
    subst k1. apply filter_In in Hf. destruct Hf as [Hin1 Hu]. simpl in Hu.
    apply list_elem_of_In in Hin1.
    pose proof (od_elem_get _ _ _ Hnd Hin1) as G1.
    pose proof (od_elem_get _ _ _ Hnd Hin) as G. congruence.
  - intros Hu. exists k. split; [|apply String.eqb_refl].
    apply in_map_iff. exists (k, o). split; [reflexivity|].
    apply filter_In. split; [apply list_elem_of_In, Hin|exact Hu].
Qed.

Lemma user_orders_NoDup (pending_orders : odict order) (f : string * order → bool) :
  NoDup pending_orders.*1 →
  NoDup (List.map fst (List.filter f pending_orders)).
Proof.
  induction pending_orders as [|[k o] d IH]; intros Hnd; [constructor|].
  rewrite fmap_cons in Hnd. apply NoDup_cons in Hnd. destruct Hnd as [Hk Hnd].
  simpl. destruct (f (k, o)); [|apply IH, Hnd].
  simpl. apply NoDup_cons. split; [|apply IH, Hnd].
  intros Hin. apply Hk. apply list_elem_of_In, in_map_iff in Hin.
  destruct Hin as ([k' o'] & E & Hf). simpl in E. subst k'.
  apply filter_In in Hf. destruct Hf as [Hin _].
  apply list_elem_of_fmap. exists (k, o'). split; [reflexivity|].
  apply list_elem_of_In, Hin.
Qed.

(** With distinct ids, looking an id up while others are being deleted
    gives the order it had at the start. *)
Lemma cancel_symbol_fold (p0 : odict order) sym ids :
  NoDup ids → ∀ p,
  (∀ id, id ∈ ids → od_get id p = od_get id p0) →
  foldl (fun pending id =>
           match od_get id pending with
           | Some o =>
               if String.eqb (o_symbol o) sym then od_del id pending else pending
           | None => pending
           end) p ids
  = foldl (fun pending id =>
             if match od_get id p0 with
                | Some o => String.eqb (o_symbol o) sym
                | None => false
                end
             then od_del id pending else pending) p ids.
Proof.
  induction 1 as [|id ids Hid Hnd IH]; intros p Hp; cbn [foldl]; [reflexivity|].
  rewrite (Hp id) by left.
  destruct (od_get id p0) as [o|]; [destruct (String.eqb (o_symbol o) sym)|];
    apply IH; intros id' Hin; try (apply Hp; right; exact Hin).
  rewrite od_get_del_ne; [apply Hp; right; exact Hin|].
  intros ->. exact (Hid Hin).
Qed.

(** X12. In a book with distinct ids, cancelling limit orders removes
    exactly the trader's orders, all of them or those of the given symbol,
    and leaves the other orders, in their order, and the account as they
    were. *)
Theorem cancel_limit_orders u pending_orders username symbol :
  unique_ids pending_orders →
  cancel_order u pending_orders username "limit" symbol
  = (u,
     List.filter
       (fun kv =>
          negb (String.eqb (o_user kv.2) username
                && match given symbol with
                   | Some sym => String.eqb (o_symbol kv.2) sym
                   | None => true
                   end))
       pending_orders).
Proof.
  intros Hnd. unfold cancel_order.
  replace (String.eqb "limit" "stoploss") with false by reflexivity.
  rewrite String.eqb_refl.
  set (ids := List.map fst (List.filter _ pending_orders)).
  destruct (given symbol) as [sym|]; f_equal.
  - rewrite (cancel_symbol_fold pending_orders sym ids);
      [|apply user_orders_NoDup, Hnd|reflexivity].
    rewrite od_del_each. apply filter_ext_in. intros [k o] Hin.
    apply list_elem_of_In in Hin. cbn [fst snd]. unfold ids.
    rewrite (user_orders_spec _ _ _ _ Hnd Hin), (od_elem_get _ _ _ Hnd Hin).
    reflexivity.
  - pose proof (od_del_each (fun _ => true) ids pending_orders) as H.
    cbv beta iota in H. rewrite H. apply filter_ext_in. intros [k o] Hin.
    apply list_elem_of_In in Hin. cbn [fst snd]. unfold ids.
    rewrite (user_orders_spec _ _ _ _ Hnd Hin). reflexivity.
Qed.

(** ** Creating stop orders *)

(** X13. [set_stop_loss] never touches cash or holdings and acts on the
    stop order of its symbol only.  When it fails the stop orders are as
    before; when it succeeds the symbol is held, the order is for no more
    shares than are held, it replaces whatever order the symbol had, and a
    fixed stop carries the stop price that was passed.  Stop orders on held
    symbols only stay so. *)
Theorem set_stop_loss_only_for_held
    fetch_single_price now u sym n stop_price trailing trailing_percent :
  let r := set_stop_loss fetch_single_price now u sym n stop_price trailing
                         trailing_percent in
  balance r.2 = balance u ∧ portfolio r.2 = portfolio u ∧
  (∀ k, k ≠ sym → get_stop_losses r.2 !! k = get_stop_losses u !! k) ∧
  (stops_held u → stops_held r.2) ∧
  (if r.1 then
     ∃ held sd,
       portfolio u !! sym = Some held ∧ (n <= shares held)%Z ∧
       get_stop_losses r.2 !! sym = Some sd ∧
       sl_shares sd = n ∧ sl_trailing sd = trailing ∧
       (trailing = false → sl_price sd = stop_price)
   else get_stop_losses r.2 = get_stop_losses u).
Proof.
  cbv zeta. unfold set_stop_loss.
  destruct (portfolio u !! sym) as [held|] eqn:Hheld; [|repeat split; done].
  destruct (Z.ltb (shares held) n) eqn:En; [repeat split; done|].
  apply Z.ltb_ge in En.
  assert (Hstore : ∀ sd,
            sl_shares sd = n → sl_trailing sd = trailing →
            (trailing = false → sl_price sd = stop_price) →
            let u' := User (balance u) (portfolio u)
                           (Some (<[sym := sd]> (get_stop_losses u))) in
            balance u' = balance u ∧ portfolio u' = portfolio u ∧
            (∀ k, k ≠ sym → get_stop_losses u' !! k = get_stop_losses u !! k) ∧
            (stops_held u → stops_held u') ∧
            ∃ held0 sd0,
              Some held = Some held0 ∧ (n <= shares held0)%Z ∧
              get_stop_losses u' !! sym = Some sd0 ∧
              sl_shares sd0 = n ∧ sl_trailing sd0 = trailing ∧
              (trailing = false → sl_price sd0 = stop_price)).
  { intros sd H1 H2 H3. cbv zeta. unfold get_stop_losses at 1 3 4. simpl.
    split; [reflexivity|]. split; [reflexivity|]. split.
    - intros k Hk. apply lookup_insert_ne. done.
    - split.
      + intros Hh k Hk. unfold get_stop_losses in Hk. simpl in Hk.
        simpl. destruct (decide (sym = k)) as [<-|Hne]; [rewrite Hheld; eauto|].
        rewrite lookup_insert_ne in Hk by done. apply Hh, Hk.
      + exists held, sd. unfold get_stop_losses at 1. simpl.
        rewrite lookup_insert_eq. repeat split; assumption. }
  destruct (trailing && truthy trailing_percent) eqn:Htr.
  - destruct (fetch_single_price sym) as [s|]; cbn [fst snd].
    + apply Hstore; [reflexivity|reflexivity|].
      intros ->. discriminate.
    + split; [reflexivity|]. split; [reflexivity|]. split; [reflexivity|].
      split; [|reflexivity]. intros Hh k Hk. exact (Hh k Hk).
  - cbn [fst snd]. apply Hstore; reflexivity.
Qed.

(** ** The limit-order pass *)

(** The ways an iteration can go: nothing happens (no quote, or the price
    condition does not hold), or the order is deleted, with the users as
    they were (owner gone, fill refused), after a buy fill or after a sell
    fill. *)
Lemma limit_order_step_cases stocks fetch_single_price st id o :
  let st' := limit_order_step stocks fetch_single_price st (id, o) in
  (st' = st ∧ is_Some (lo_users st !! o_user o) ∧
   match current_stock stocks fetch_single_price (o_symbol o) with
   | None => True
   | Some s =>
       (o_type o = "buy" → o_price o < price s) ∧
       (o_type o = "sell" → price s < o_price o)
   end)
  ∨ (lo_pending st' = od_del id (lo_pending st) ∧
     ((lo_users st' = lo_users st ∧ lo_executed st' = lo_executed st ∧
       (lo_users st !! o_user o = None
        ∨ ∃ s, current_stock stocks fetch_single_price (o_symbol o) = Some s ∧
               ((o_type o = "buy" ∧ price s <= o_price o)
                ∨ (o_type o = "sell" ∧ o_price o <= price s))))
      ∨ (∃ u s,
           lo_users st !! o_user o = Some u ∧
           current_stock stocks fetch_single_price (o_symbol o) = Some s ∧
           o_type o = "buy" ∧ price s <= o_price o ∧
           times (price s) (o_shares o) <= balance u ∧
           lo_users st'
           = <[o_user o :=
                 User (balance u - times (price s) (o_shares o))
                      (add_shares (portfolio u) (o_symbol o) (o_shares o) (price s))
                      (stop_losses u)]> (lo_users st) ∧
           lo_executed st'
           = (lo_executed st ++
              [LimitExecution "buy" (o_symbol o) (o_shares o) (o_price o)
                              (price s) (times (price s) (o_shares o))
                              (o_user o)])%list)
      ∨ (∃ u s held,
           lo_users st !! o_user o = Some u ∧
           current_stock stocks fetch_single_price (o_symbol o) = Some s ∧
           o_type o = "sell" ∧ o_price o <= price s ∧
           portfolio u !! o_symbol o = Some held ∧
           (o_shares o <= shares held)%Z ∧
           lo_users st'
           = <[o_user o :=
                 User (balance u + times (price s) (o_shares o))
                      (remove_shares (portfolio u) (o_symbol o) held (o_shares o))
                      (stop_losses u)]> (lo_users st) ∧
           lo_executed st'
           = (lo_executed st ++
              [LimitExecution "sell" (o_symbol o) (o_shares o) (o_price o)
                              (price s) (times (price s) (o_shares o))
                              (o_user o)])%list))).
Proof.
  cbv zeta. unfold limit_order_step.
  destruct (lo_users st !! o_user o) as [u|] eqn:Hu.
  2: { right. split; [reflexivity|]. left. repeat split. left. reflexivity. }
  destruct (current_stock stocks fetch_single_price (o_symbol o)) as [s|] eqn:Hs.
  2: { left. repeat split. eauto. }
  destruct (String.eqb (o_type o) "buy") eqn:Eb.
  - apply String.eqb_eq in Eb. rewrite Eb.
    replace (String.eqb "buy" "sell") with false by reflexivity.
    cbn [andb].
    destruct (Qle_bool (price s) (o_price o)) eqn:Hp.
    + apply Qle_bool_iff in Hp. right. cbn [lo_pending].
      destruct (Qle_bool (times (price s) (o_shares o)) (balance u)) eqn:Hc;
        cbn [lo_pending lo_users lo_executed]; (split; [reflexivity|]).
      * apply Qle_bool_iff in Hc. right. left. exists u, s. repeat split; done.
      * left. repeat split. right. exists s. split; [reflexivity|]. left. done.
    + apply Qle_bool_gt in Hp. left. split; [reflexivity|]. split; [eauto|].
      split; [intros _; exact Hp|discriminate].
  - cbn [andb]. destruct (String.eqb (o_type o) "sell") eqn:Es.
    + apply String.eqb_eq in Es. cbn [andb].
      destruct (Qle_bool (o_price o) (price s)) eqn:Hp.
      * apply Qle_bool_iff in Hp. right.
        destruct (portfolio u !! o_symbol o) as [held|] eqn:Hheld.
        -- destruct (Z.leb (o_shares o) (shares held)) eqn:Hn;
             cbn [lo_pending lo_users lo_executed]; (split; [reflexivity|]).
           ++ apply Z.leb_le in Hn. right. right. exists u, s, held.
              repeat split; done.
           ++ left. repeat split. right. exists s. split; [reflexivity|].
              right. done.
        -- cbn [lo_pending lo_users lo_executed]. split; [reflexivity|].
           left. repeat split. right. exists s. split; [reflexivity|].
           right. done.
      * apply Qle_bool_gt in Hp. left. split; [reflexivity|]. split; [eauto|].
        split; [|intros _; exact Hp].
        intros E. rewrite E in Eb. discriminate.
    + left. split; [reflexivity|]. split; [eauto|].
      split; intros E; rewrite E in *; discriminate.
Qed.

Lemma od_del_sublist {V} k (d : odict V) : sublist (od_del k d) d.
Proof.
  induction d as [|[k' v] d IH]; simpl; [constructor|].
  destruct (String.eqb k k'); [apply sublist_cons, IH|apply sublist_skip, IH].
Qed.

Section LimitLoop.
Variable stocks : list stock.
Variable fetch_single_price : quote_source.

Local Abbreviation lstep := (limit_order_step stocks fetch_single_price).

(** The loop only deletes orders. *)
Lemma limit_loop_sublist l : ∀ st,
  sublist (lo_pending (foldl lstep st l)) (lo_pending st).
Proof.
  induction l as [|[id o] l IH]; intros st; [reflexivity|].
  cbn [foldl]. etrans; [apply IH|].
  destruct (limit_order_step_cases stocks fetch_single_price st id o)
    as [[-> _]|[-> _]]; [reflexivity|apply od_del_sublist].
Qed.

(** Iterations for other ids leave the order under [id] alone. *)
Lemma limit_loop_pending_other l id : ∀ st,
  id ∉ l.*1 →
  od_get id (lo_pending (foldl lstep st l)) = od_get id (lo_pending st).
Proof.
  induction l as [|[id' o] l IH]; intros st Hn; [reflexivity|].
  rewrite fmap_cons, not_elem_of_cons in Hn. destruct Hn as [Hne Hl].
  cbn [foldl]. rewrite (IH _ Hl).
  destruct (limit_order_step_cases stocks fetch_single_price st id' o)
    as [[-> _]|[-> _]]; [reflexivity|].
  apply od_get_del_ne. simpl in Hne. done.
Qed.

(** The loop neither creates nor deletes accounts. *)
Lemma limit_loop_users_dom l name : ∀ st,
  is_Some (lo_users (foldl lstep st l) !! name) ↔ is_Some (lo_users st !! name).
Proof.
  induction l as [|[id o] l IH]; intros st; [reflexivity|].
  cbn [foldl]. rewrite IH.
  destruct (limit_order_step_cases stocks fetch_single_price st id o)
    as [[-> _]|[_ [(-> & _)|[(u & s & Hu & _ & _ & _ & _ & -> & _)
                            |(u & s & held & Hu & _ & _ & _ & _ & _ & -> & _)]]]];
    try reflexivity;
    (destruct (decide (o_user o = name)) as [<-|Hne];
     [rewrite lookup_insert_eq, Hu; split; eauto
     |rewrite lookup_insert_ne by done; reflexivity]).
Qed.

(** An account is changed only by orders in its name. *)
Lemma limit_loop_users_other l name : ∀ st,
  (∀ id o, (id, o) ∈ l → o_user o ≠ name) →
  lo_users (foldl lstep st l) !! name = lo_users st !! name.
Proof.
  induction l as [|[id o] l IH]; intros st Hl; [reflexivity|].
  cbn [foldl]. rewrite IH by (intros id' o' Hin; apply (Hl id'); right; exact Hin).
  assert (Hne : o_user o ≠ name) by (apply (Hl id); left).
  destruct (limit_order_step_cases stocks fetch_single_price st id o)
    as [[-> _]|[_ [(-> & _)|[(u & s & _ & _ & _ & _ & _ & -> & _)
                            |(u & s & held & _ & _ & _ & _ & _ & _ & -> & _)]]]];
    try reflexivity; apply lookup_insert_ne; done.
Qed.

(** The executions recorded by the loop match orders and quotes. *)
Lemma limit_loop_records pending_orders l : ∀ st,
  (∀ kv, kv ∈ l → kv ∈ pending_orders) →
  Forall (limit_record_ok stocks fetch_single_price pending_orders)
         (lo_executed st) →
  Forall (limit_record_ok stocks fetch_single_price pending_orders)
         (lo_executed (foldl lstep st l)).
Proof.
  induction l as [|[id o] l IH]; intros st Hl Hst; [exact Hst|].
  cbn [foldl]. apply IH; [intros kv Hin; apply Hl; right; exact Hin|].
  assert (Hin : (id, o) ∈ pending_orders) by (apply Hl; left).
  destruct (limit_order_step_cases stocks fetch_single_price st id o)
    as [[-> _]|[_ [(_ & -> & _)|[(u & s & _ & Hs & Ht & Hp & _ & _ & ->)
                                |(u & s & held & _ & Hs & Ht & Hp & _ & _ & _ & ->)]]]];
    try exact Hst;
    (apply Forall_app; split; [exact Hst|]; apply Forall_singleton;
     exists id, o, s; cbn; rewrite Ht; repeat split; try done;
     first [left; done | right; done]).
Qed.

(** The loop keeps sound accounts sound. *)
Lemma limit_loop_users_ok l : ∀ st,
  quotes_nonneg stocks fetch_single_price →
  (∀ id o, (id, o) ∈ l → (0 < o_shares o)%Z) →
  users_ok (lo_users st) →
  users_ok (lo_users (foldl lstep st l)).
Proof.
  induction l as [|[id o] l IH]; intros st Hq Hl Hok; [exact Hok|].
  cbn [foldl]. apply IH; [exact Hq|intros id' o' Hin; apply (Hl id'); right; exact Hin|].
  assert (Hn : (0 < o_shares o)%Z) by (apply (Hl id); left).
  destruct (limit_order_step_cases stocks fetch_single_price st id o)
    as [[-> _]|[_ [(-> & _)|[(u & s & Hu & Hs & _ & _ & Hc & -> & _)
                            |(u & s & held & Hu & Hs & _ & _ & Hheld & Hle & -> & _)]]]];
    try exact Hok; intros name u' Hname;
    (destruct (decide (o_user o = name)) as [<-|Hne];
     [rewrite lookup_insert_eq in Hname; injection Hname as <-
     |rewrite lookup_insert_ne in Hname by done; exact (Hok name u' Hname)]);
    destruct (Hok _ _ Hu) as [Hcash Hpf].
  - split; cbn [balance portfolio]; [lra|].
    intros k h Hk. unfold add_shares in Hk.
    destruct (portfolio u !! o_symbol o) as [old|] eqn:Hold;
      (destruct (decide (o_symbol o = k)) as [<-|Hne];
       [rewrite lookup_insert_eq in Hk; injection Hk as <-; simpl
       |rewrite lookup_insert_ne in Hk by done; exact (Hpf k h Hk)]).
    + pose proof (Hpf _ _ Hold). lia.
    + exact Hn.
  - split; cbn [balance portfolio].
    + pose proof (times_nonneg (price s) (o_shares o) (Hq _ _ Hs) ltac:(lia)). lra.
    + intros k h Hk. unfold remove_shares in Hk.
      destruct (Z.eqb (shares held - o_shares o) 0) eqn:E0.
      * destruct (decide (o_symbol o = k)) as [<-|Hne].
        -- rewrite lookup_delete_eq in Hk. discriminate.
        -- rewrite lookup_delete_ne in Hk by done. exact (Hpf k h Hk).
      * apply Z.eqb_neq in E0. destruct (decide (o_symbol o = k)) as [<-|Hne].
        -- rewrite lookup_insert_eq in Hk. injection Hk as <-. simpl. lia.
        -- rewrite lookup_insert_ne in Hk by done. exact (Hpf k h Hk).
Qed.
End LimitLoop.

(** X14. In a book with distinct ids, what a pass does to a pending order
    that does not meet its price condition is decided by its owner and its
    quote alone: an order whose owner no longer exists is deleted; an order
    of an existing owner stays pending when its symbol has no quote, and
    when the quote is above the target of a buy or below the target of a
    sell. *)
Theorem limit_order_fate fetch_single_price pending_orders stocks users id o :
  unique_ids pending_orders →
  od_get id pending_orders = Some o →
  let after :=
    (process_limit_orders fetch_single_price pending_orders stocks users).1.1 in
  (users !! o_user o = None → od_get id after = None) ∧
  (is_Some (users !! o_user o) →
   match current_stock stocks fetch_single_price (o_symbol o) with
   | None => od_get id after = Some o
   | Some s =>
       (o_type o = "buy" → o_price o < price s) →
       (o_type o = "sell" → price s < o_price o) →
       od_get id after = Some o
   end).
Proof.
  intros Hnd Hget. cbv zeta. unfold process_limit_orders. cbn [fst].
  pose proof (od_get_elem _ _ _ Hget) as Hin.
  apply list_elem_of_split in Hin. destruct Hin as (l1 & l2 & Hl).
  unfold unique_ids in Hnd. rewrite Hl in Hnd.
  rewrite fmap_app, fmap_cons in Hnd. cbn [fst] in Hnd.
  apply NoDup_app in Hnd. destruct Hnd as (_ & Hdisj & Hnd2).
  apply NoDup_cons in Hnd2. destruct Hnd2 as [Hn2 _].
  assert (Hn1 : id ∉ l1.*1) by (intros Hc; apply (Hdisj _ Hc); left).
  set (st0 := LoState pending_orders users []).
  rewrite Hl. rewrite foldl_app. cbn [foldl].
  set (st1 := foldl (limit_order_step stocks fetch_single_price) st0 l1).
  rewrite (limit_loop_pending_other stocks fetch_single_price l2 id _ Hn2).
  assert (H1 : od_get id (lo_pending st1) = Some o).
  { unfold st1. rewrite (limit_loop_pending_other _ _ l1 id st0 Hn1). exact Hget. }
  pose proof (limit_loop_users_dom stocks fetch_single_price l1 (o_user o) st0)
    as Hdom. fold st1 in Hdom. cbn [lo_users st0] in Hdom.
  pose proof (limit_order_step_cases stocks fetch_single_price st1 id o) as Hc.
  cbv zeta in Hc. split.
  - intros Hnone.
    destruct Hc as [(_ & Hsome & _)|[-> _]]; [|apply od_get_del_eq].
    apply Hdom in Hsome. rewrite Hnone in Hsome. destruct Hsome; discriminate.
  - intros Hsome. apply Hdom in Hsome.
    assert (Hkeep : (∀ s, current_stock stocks fetch_single_price (o_symbol o) = Some s →
                          (o_type o = "buy" → o_price o < price s) ∧
                          (o_type o = "sell" → price s < o_price o)) →
                    od_get id (lo_pending
                                 (limit_order_step stocks fetch_single_price st1 (id, o)))
                    = Some o).
    { intros Hq. destruct Hc as [(-> & _)|(_ & Hr)]; [exact H1|]. exfalso.
      assert (Hbad : ∀ s, current_stock stocks fetch_single_price (o_symbol o) = Some s →
                (o_type o = "buy" ∧ price s <= o_price o)
                ∨ (o_type o = "sell" ∧ o_price o <= price s) → False).
      { intros s Hs [[Ht Hp]|[Ht Hp]]; destruct (Hq s Hs) as [Hb Hsell].
        - specialize (Hb Ht). lra.
        - specialize (Hsell Ht). lra. }
      destruct Hr as [(_ & _ & [Hnone|(s & Hs & Hcond)])
                     |[(u & s & _ & Hs & Ht & Hp & _)
                      |(u & s & held & _ & Hs & Ht & Hp & _)]].
      - rewrite Hnone in Hsome. destruct Hsome; discriminate.
      - exact (Hbad s Hs Hcond).
      - apply (Hbad s Hs). left. done.
      - apply (Hbad s Hs). right. done. }
    destruct (current_stock stocks fetch_single_price (o_symbol o)) as [s|] eqn:Hs.
    + intros Hb Hsell. apply Hkeep. intros s' [= <-]. split; assumption.
    + apply Hkeep. intros s' [=].
Qed.

(** X15. A limit-order pass only deletes orders (what is left is the old
    book with some orders removed, in the old order), neither creates nor
    deletes accounts, and leaves an account alone unless an order in the
    book is in its name. *)
Theorem process_limit_orders_only_deletes
    fetch_single_price pending_orders stocks users :
  let r := process_limit_orders fetch_single_price pending_orders stocks users in
  sublist r.1.1 pending_orders ∧
  (∀ name, is_Some (r.1.2 !! name) ↔ is_Some (users !! name)) ∧
  (∀ name, (∀ id o, (id, o) ∈ pending_orders → o_user o ≠ name) →
           r.1.2 !! name = users !! name).
Proof.
  cbv zeta. unfold process_limit_orders. cbn [fst snd]. split; [|split].
  - apply (limit_loop_sublist stocks fetch_single_price pending_orders
             (LoState pending_orders users [])).
  - intros name.
    apply (limit_loop_users_dom stocks fetch_single_price pending_orders name
             (LoState pending_orders users [])).
  - intros name Hname.
    apply (limit_loop_users_other stocks fetch_single_price pending_orders name
             (LoState pending_orders users []) Hname).
Qed.

(** X16. With no negative quote and only orders for a positive number of
    shares in the book, a limit-order pass leaves sound accounts sound: no
    fill makes a cash balance negative or leaves a holding without
    shares. *)
Theorem process_limit_orders_users_ok
    fetch_single_price pending_orders stocks users :
  quotes_nonneg stocks fetch_single_price →
  orders_positive pending_orders →
  users_ok users →
  users_ok (process_limit_orders fetch_single_price pending_orders stocks users).1.2.
Proof.
  intros Hq Hpos Hok. unfold process_limit_orders. cbn [fst snd].
  apply (limit_loop_users_ok stocks fetch_single_price pending_orders
           (LoState pending_orders users []) Hq Hpos Hok).
Qed.

(** X17. Every execution a limit-order pass returns is the fill of an
    order of the book, at the quote of its symbol and not at the target:
    the amount is quote times shares, and the quote is at or below the
    target of a buy, at or above the target of a sell. *)
Theorem process_limit_orders_records
    fetch_single_price pending_orders stocks users :
  Forall (limit_record_ok stocks fetch_single_price pending_orders)
         (process_limit_orders fetch_single_price pending_orders stocks users).2.
Proof.
  unfold process_limit_orders. cbn [snd].
  apply (limit_loop_records stocks fetch_single_price pending_orders pending_orders
           (LoState pending_orders users [])); [done|constructor].
Qed.

(** ** Placing limit orders from the command line *)




(** X19. A limit buy placed on an empty book is filled by the first pass
    whose quote is at or below its target, if the trader's account is still
    what it was: the fill is at the quote, not at the target, so the cash
    goes down by quote times shares, the shares are added to the holding,
    the order leaves the book, and one execution is returned. *)
Theorem limitbuy_then_pass_fills_at_quote
    fetch_single_price clock now users stocks u username sym n target_price s :
  users !! username = Some u →
  (main_limitbuy clock now u [] username sym n target_price).1
  = Placed (order_id username sym "buy" clock) →
  current_stock stocks fetch_single_price sym = Some s →
  price s <= target_price →
  process_limit_orders fetch_single_price
    (main_limitbuy clock now u [] username sym n target_price).2 stocks users
  = ([],
     <[username :=
         User (balance u - times (price s) n)
              (add_shares (portfolio u) sym n (price s)) (stop_losses u)]> users,
     [LimitExecution "buy" sym n target_price (price s) (times (price s) n)
                     username]).
Proof.
  intros Hu Hplaced Hs Hp. revert Hplaced.
  unfold main_limitbuy, place_limit_order.
  destruct (Z.leb n 0) eqn:En; cbn [orb fst snd]; [discriminate|].
  destruct (Qle_bool target_price 0) eqn:Et; cbn [fst snd]; [discriminate|].
  destruct (Qltb (balance u) (times target_price n)) eqn:Ec; cbn [fst snd];
    [discriminate|].
  intros _. apply Z.leb_gt in En. apply Qltb_ge in Ec.
  assert (Hcost : times (price s) n <= balance u).
  { eapply Qle_trans; [|exact Ec]. unfold times.
    apply Qmult_le_compat_r; [exact Hp|].
    change 0 with (inject_Z 0). rewrite <- Zle_Qle. lia. }
  unfold process_limit_orders. cbn [od_set foldl].
  unfold limit_order_step. cbn [o_user o_symbol o_price o_shares o_type lo_users].
  rewrite Hu, Hs. rewrite String.eqb_refl. cbn [andb].
  apply Qle_bool_iff in Hp. rewrite Hp.
  apply Qle_bool_iff in Hcost. rewrite Hcost.
  cbn [lo_pending lo_users lo_executed od_del app].
  rewrite String.eqb_refl. reflexivity.
Qed.

(** ** Sound systems stay sound *)





Lemma filter_sublist {A} (f : A → bool) l : sublist (List.filter f l) l.
Proof.
  induction l as [|x l IH]; simpl; [constructor|].
  destruct (f x); [apply sublist_skip, IH|apply sublist_cons, IH].
Qed.









(** ** Trailing stops below their high *)


(** ** Net worth through the passes *)







(** ** The further theorems at work on the example accounts *)

Lemma acme_quotes_nonneg p fetch_single_price :
  0 <= p → (∀ sym s, fetch_single_price sym = Some s → 0 <= price s) →
  quotes_nonneg (acme_at p) fetch_single_price.
Proof.
  intros Hp Hf sym s. unfold current_stock, find_stock, acme_at.
  cbn [List.find symbol].
  destruct (String.eqb "ACME" sym); intros H.
  - injection H as H. subst s. exact Hp.
  - exact (Hf sym s H).
Qed.

Lemma singleton_account_ok b sym h :
  0 <= b → (0 < shares h)%Z → account_ok (User b {[ sym := h ]} (Some ∅)).
Proof.
  intros Hb Hh. split; [exact Hb|]. simpl. intros k h' Hk.
  apply lookup_singleton_Some in Hk. destruct Hk as [_ <-]. exact Hh.
Qed.

(** A fixed stop at 95 on ten shares, with ACME quoted at 90. *)
Lemma fixed_stop_triggers_at_or_below_witness :
  let u' := (check_stop_losses no_quotes ten_acme_stopped (acme_at 90)).1 in
  (90 <= 95 →
     get_stop_losses u' !! "ACME" = None ∧
     portfolio u' !! "ACME"
     = if Z.leb 10 10 then None else Some (Holding (10 - 10) 100)) ∧
  (95 < 90 →
     get_stop_losses u' !! "ACME" = Some (StopData 10 95 "t0" false None None) ∧
     portfolio u' !! "ACME" = Some (Holding 10 100)).
Proof.
  apply (fixed_stop_triggers_at_or_below no_quotes ten_acme_stopped (acme_at 90)
           "ACME" (StopData 10 95 "t0" false None None) (Holding 10 100)
           (Stock "ACME" 90)); reflexivity.
Defined.

(** The pass on [ten_acme_stopped] with ACME quoted at 90. *)
Lemma check_stop_losses_account_ok_witness :
  account_ok (check_stop_losses no_quotes ten_acme_stopped (acme_at 90)).1.
Proof.
  apply (check_stop_losses_account_ok no_quotes ten_acme_stopped (acme_at 90)).
  - apply acme_quotes_nonneg; [discriminate|discriminate].
  - intros sym sd H.
    change (get_stop_losses ten_acme_stopped)
      with (<["ACME" := StopData 10 95 "t0" false None None]>
              (∅ : gmap string stop_data)) in H.
    apply lookup_insert_Some in H.
    destruct H as [[_ <-]|[_ H]]; [discriminate|discriminate H].
  - apply (singleton_account_ok 0 "ACME" (Holding 10 100)); [discriminate|reflexivity].
Defined.

(** [ten_acme] with ACME quoted at 120. *)
Lemma net_worths_agree_when_quoted_witness :
  calculate_net_worth no_quotes ten_acme (acme_at 120)
  = show_enhanced_portfolio_net_worth no_quotes ten_acme (acme_at 120).
Proof.
  apply (net_worths_agree_when_quoted no_quotes ten_acme (acme_at 120)).
  intros sym held H. unfold ten_acme in H. cbn [portfolio] in H.
  apply lookup_singleton_Some in H. destruct H as [<- _].
  vm_compute. eauto.
Defined.




(** ann cancels her limit orders for ACME while [ann_buy] is the book. *)
Lemma cancel_limit_orders_witness :
  cancel_order ann ann_buy "ann" "limit" (Some "ACME")
  = (ann,
     List.filter
       (fun kv =>
          negb (String.eqb (o_user kv.2) "ann"
                && match given (Some "ACME") with
                   | Some sym => String.eqb (o_symbol kv.2) sym
                   | None => true
                   end))
       ann_buy).
Proof.
  apply (cancel_limit_orders ann ann_buy "ann" (Some "ACME")).
  apply NoDup_singleton.
Defined.

(** The buy order of [ann_buy], target 100, with ACME quoted at 101. *)
Lemma limit_order_fate_witness :
  let o := Order "ann" "ACME" 10 100 "buy" "t0" "pending" in
  let after :=
    (process_limit_orders no_quotes ann_buy (acme_at 101) {[ "ann" := ann ]}).1.1 in
  (({[ "ann" := ann ]} : gmap string user) !! o_user o = None →
   od_get "ann_ACME_buy_1000" after = None) ∧
  (is_Some (({[ "ann" := ann ]} : gmap string user) !! o_user o) →
   match current_stock (acme_at 101) no_quotes (o_symbol o) with
   | None => od_get "ann_ACME_buy_1000" after = Some o
   | Some s =>
       (o_type o = "buy" → o_price o < price s) →
       (o_type o = "sell" → price s < o_price o) →
       od_get "ann_ACME_buy_1000" after = Some o
   end).
Proof.
  apply (limit_order_fate no_quotes ann_buy (acme_at 101) {[ "ann" := ann ]}
           "ann_ACME_buy_1000" (Order "ann" "ACME" 10 100 "buy" "t0" "pending")).
  - apply NoDup_singleton.
  - reflexivity.
Defined.

(** The pass on [ann_sell] with ACME quoted at 110. *)
Lemma process_limit_orders_users_ok_witness :
  users_ok (process_limit_orders no_quotes ann_sell (acme_at 110)
              {[ "ann" := ann ]}).1.2.
Proof.
  apply (process_limit_orders_users_ok no_quotes ann_sell (acme_at 110)
           {[ "ann" := ann ]}).
  - apply acme_quotes_nonneg; [discriminate|discriminate].
  - intros id o H. apply list_elem_of_singleton in H. injection H as _ ->.
    reflexivity.
  - intros name u H. apply lookup_singleton_Some in H. destruct H as [_ <-].
    apply (singleton_account_ok 500 "ACME" (Holding 3 80)); [discriminate|reflexivity].
Defined.

(** [newcomer], as ann, places a limit buy of ten shares at 100 on an empty
    book at clock 1000; the next pass sees ACME at 90. *)
Lemma limitbuy_then_pass_fills_at_quote_witness :
  process_limit_orders no_quotes
    (main_limitbuy 1000 "t0" newcomer [] "ann" "ACME" 10 100).2 (acme_at 90)
    {[ "ann" := newcomer ]}
  = ([],
     <["ann" :=
         User (balance newcomer - times 90 10)
              (add_shares (portfolio newcomer) "ACME" 10 90)
              (stop_losses newcomer)]> {[ "ann" := newcomer ]},
     [LimitExecution "buy" "ACME" 10 100 90 (times 90 10) "ann"]).
Proof.
  apply (limitbuy_then_pass_fills_at_quote no_quotes 1000 "t0"
           {[ "ann" := newcomer ]} (acme_at 90) newcomer "ann" "ACME" 10 100
           (Stock "ACME" 90)).
  - reflexivity.
  - reflexivity.
  - reflexivity.
  - vm_compute. discriminate.
Defined.




